(** * khatru: the websocket message handler (handlers.go)

    A shallow embedding of the per-message task that [HandleWebsocket]
    starts for every frame read from a connection, and of the goroutine it
    spawns to emit the end-of-stored-events marker.

    The handler is effectful: it writes frames on the connection, calls the
    relay's storage and registry methods, mutates the connection record,
    closes a channel (which panics in Go when the channel is already
    closed) and starts a goroutine that waits on a [sync.WaitGroup].  It is
    modelled in a state monad with a panic outcome. *)

From Stdlib Require Import ZArith List String Bool Lia.
From Stdlib Require Import Permutation.
Import ListNotations.
Local Open Scope string_scope.
Local Open Scope Z_scope.

(** ** Go's [int64] *)

Module Int64.

Definition half : Z := 2 ^ 63.
Definition modulus : Z := 2 ^ 64.

(** The value a mathematical integer has once stored in an [int64]. *)
Definition wrap (z : Z) : Z := (z + half) mod modulus - half.

(** [a + b] on [int64] operands. *)
Definition add (a b : Z) : Z := wrap (a + b).

Definition in_range (z : Z) : Prop := - half <= z < half.

Definition max_int : Z := half - 1.

End Int64.

(** ** The protocol types of go-nostr used by the handler *)

Record Event := mkEvent {
  ID : string;
  PubKey : string;
  CreatedAt : Z;
  Kind : Z;
  Tags : list (list string);
  Content : string;
  Sig : string
}.

Section Handlers.

(** [nostr.Filter] is opaque to the handler: it is handed to the
    collaborators unchanged. *)
Context {Filter : Type}.

(** The state owned by the collaborators (event store, listener registry,
    and whatever they send on the connection themselves). *)
Context {Ext : Type}.

Inductive Envelope :=
| EventEnvelope (SubscriptionID : option string) (ev : Event)
| ReqEnvelope (SubscriptionID : string) (Filters : list Filter)
| CountEnvelope (SubscriptionID : string) (Filters : list Filter)
                (Count : option Z)
| NoticeEnvelope (msg : string)
| EOSEEnvelope (SubscriptionID : string)
| CloseEnvelope (SubscriptionID : string)
| ClosedEnvelope (SubscriptionID : string) (Reason : string)
| OKEnvelope (EventID : string) (OK : bool) (Reason : string)
| AuthEnvelope (Challenge : option string) (ev : Event).

(** ** Connection and relay *)

(** A [chan struct{}] on which nothing is ever sent: only whether it has
    been closed matters. *)
Inductive Chan := ChanOpen | ChanClosed.

Record WebSocket := mkWebSocket {
  Challenge : string;
  Authed : string;
  WaitingForAuth : Chan
}.

(** [context.Context] as the message task builds it. *)
Inductive Ctx :=
| Background
| WithAuth (parent : Ctx) (pubkey : string).

(** The fields of [Relay] read by the handler.  [CountEvents] is a slice of
    counting functions, only compared with [nil] here. *)
Record Relay := mkRelay {
  ServiceURL : string;
  CountEvents_nil : bool
}.

(** ** External functions

    Library functions (go-nostr, nip42, crypto) and the relay methods that
    live in other files of the repository.  A Go [error] is the option of
    its message, [None] being [nil]. *)
Class Externals := {
  Serialize : Event -> string;
  Sum256 : string -> string;
  EncodeToString : string -> string;
  CheckSignature : Event -> bool * option string;
  NormalizeOKMessage : string -> string -> string;
  ValidateAuthEvent : Event -> string -> string -> string * bool;
  ParseMessage : string -> option Envelope;
  (** [rl.handleDeleteRequest(ctx, &evt)] *)
  handleDeleteRequest : Ctx -> Event -> Ext -> option string * Ext;
  (** [rl.AddEvent(ctx, &evt)] *)
  AddEvent : Ctx -> Event -> Ext -> option string * Ext;
  (** [rl.handleCountRequest(ctx, ws, filter)] *)
  handleCountRequest : Ctx -> WebSocket -> Filter -> Ext -> Z * Ext;
  (** [rl.handleRequest(ctx, id, &eose, ws, filter)]: the wait group is
      passed by pointer, so the call takes its counter and gives back the
      counter it leaves. *)
  handleRequest :
    Ctx -> string -> Z -> WebSocket -> Filter -> Ext -> option string * Z * Ext;
  (** [setListener(id, ws, filters)] *)
  setListener : string -> WebSocket -> list Filter -> Ext -> Ext;
  (** [removeListenerId(ws, id)] *)
  removeListenerId : WebSocket -> string -> Ext -> Ext
}.

Context {X : Externals}.
Variable rl : Relay.

(** ** Handler state *)

(** Calls made to the collaborators, in order. *)
Inductive Call :=
| Call_handleDeleteRequest (ev : Event)
| Call_AddEvent (ev : Event)
| Call_handleCountRequest (filter : Filter)
| Call_handleRequest (id : string) (filter : Filter)
| Call_setListener (id : string) (filters : list Filter)
| Call_removeListenerId (id : string).

(** A goroutine started by the handler: wait for a wait group, then write
    one frame. *)
Inductive Task :=
| WaitThenWrite (group : nat) (frame : Envelope).

Record State := mkState {
  ws : WebSocket;
  ctx : Ctx;
  (** frames passed to [ws.WriteJSON] by the handler, oldest first *)
  written : list Envelope;
  (** collaborator calls, oldest first *)
  calls : list Call;
  ext : Ext;
  (** counters of the wait groups allocated so far *)
  groups : nat -> Z;
  next_group : nat;
  (** goroutines started and not yet finished *)
  spawned : list Task
}.

Inductive Outcome (A : Type) :=
| Returned (a : A) (s : State)
| Panicked (msg : string) (s : State).
Arguments Returned {A} a s.
Arguments Panicked {A} msg s.

Definition M (A : Type) : Type := State -> Outcome A.

Definition ret {A} (a : A) : M A := fun s => Returned a s.

Definition bind {A B} (m : M A) (k : A -> M B) : M B :=
  fun s =>
    match m s with
    | Returned a s' => k a s'
    | Panicked msg s' => Panicked msg s'
    end.

Notation "x <- m ;; k" := (bind m (fun x => k))
  (at level 61, m at next level, right associativity).
Notation "m ;;; k" := (bind m (fun _ => k))
  (at level 61, right associativity).

(** *** State updates *)

Definition with_ws (w : WebSocket) (s : State) : State :=
  mkState w (ctx s) (written s) (calls s) (ext s) (groups s) (next_group s)
          (spawned s).

Definition with_ctx (c : Ctx) (s : State) : State :=
  mkState (ws s) c (written s) (calls s) (ext s) (groups s) (next_group s)
          (spawned s).

Definition with_written (l : list Envelope) (s : State) : State :=
  mkState (ws s) (ctx s) l (calls s) (ext s) (groups s) (next_group s)
          (spawned s).

Definition with_call (c : Call) (e : Ext) (s : State) : State :=
  mkState (ws s) (ctx s) (written s) (calls s ++ [c]) e (groups s)
          (next_group s) (spawned s).

Definition with_groups (g : nat -> Z) (n : nat) (s : State) : State :=
  mkState (ws s) (ctx s) (written s) (calls s) (ext s) g n (spawned s).

Definition with_spawned (l : list Task) (s : State) : State :=
  mkState (ws s) (ctx s) (written s) (calls s) (ext s) (groups s)
          (next_group s) l.

Definition set_group (g : nat) (v : Z) (m : nat -> Z) : nat -> Z :=
  fun k => if Nat.eqb k g then v else m k.

(** *** Primitive operations *)

Definition get_ws : M WebSocket := fun s => Returned (ws s) s.

Definition get_ctx : M Ctx := fun s => Returned (ctx s) s.

(** [ws.WriteJSON(frame)]; the error it returns is dropped by every caller. *)
Definition WriteJSON (frame : Envelope) : M unit :=
  fun s => Returned tt (with_written (written s ++ [frame]) s).

(** [ctx = ...] *)
Definition assign_ctx (c : Ctx) : M unit :=
  fun s => Returned tt (with_ctx c s).

(** [ws.Authed = pubkey] *)
Definition assign_Authed (pubkey : string) : M unit :=
  fun s =>
    Returned tt
      (with_ws (mkWebSocket (Challenge (ws s)) pubkey (WaitingForAuth (ws s))) s).

(** [close(ws.WaitingForAuth)]: closing a closed channel is a run-time
    panic. *)
Definition close_WaitingForAuth : M unit :=
  fun s =>
    match WaitingForAuth (ws s) with
    | ChanOpen =>
        Returned tt
          (with_ws (mkWebSocket (Challenge (ws s)) (Authed (ws s)) ChanClosed) s)
    | ChanClosed => Panicked "close of closed channel" s
    end.

(** [eose := sync.WaitGroup{}] *)
Definition new_WaitGroup : M nat :=
  fun s =>
    Returned (next_group s)
      (with_groups (set_group (next_group s) 0 (groups s)) (S (next_group s)) s).

(** [wg.Add(delta)]: a negative counter is a run-time panic. *)
Definition WaitGroup_Add (g : nat) (delta : Z) : M unit :=
  fun s =>
    let v := groups s g + delta in
    if v <? 0 then Panicked "sync: negative WaitGroup counter" s
    else Returned tt (with_groups (set_group g v (groups s)) (next_group s) s).

(** [go func() { wg.Wait(); ws.WriteJSON(frame) }()] *)
Definition go_WaitThenWrite (g : nat) (frame : Envelope) : M unit :=
  fun s => Returned tt (with_spawned (spawned s ++ [WaitThenWrite g frame]) s).

Definition call_handleDeleteRequest (ev : Event) : M (option string) :=
  fun s =>
    let '(err, e) := handleDeleteRequest (ctx s) ev (ext s) in
    Returned err (with_call (Call_handleDeleteRequest ev) e s).

Definition call_AddEvent (ev : Event) : M (option string) :=
  fun s =>
    let '(err, e) := AddEvent (ctx s) ev (ext s) in
    Returned err (with_call (Call_AddEvent ev) e s).

Definition call_handleCountRequest (filter : Filter) : M Z :=
  fun s =>
    let '(n, e) := handleCountRequest (ctx s) (ws s) filter (ext s) in
    Returned n (with_call (Call_handleCountRequest filter) e s).

Definition call_handleRequest (id : string) (g : nat) (filter : Filter)
  : M (option string) :=
  fun s =>
    let '(err, v, e) :=
      handleRequest (ctx s) id (groups s g) (ws s) filter (ext s) in
    Returned err
      (with_groups (set_group g v (groups s)) (next_group s)
         (with_call (Call_handleRequest id filter) e s)).

Definition call_setListener (id : string) (filters : list Filter) : M unit :=
  fun s =>
    Returned tt
      (with_call (Call_setListener id filters)
         (setListener id (ws s) filters (ext s)) s).

Definition call_removeListenerId (id : string) : M unit :=
  fun s =>
    Returned tt
      (with_call (Call_removeListenerId id)
         (removeListenerId (ws s) id (ext s)) s).

(** ** The handler *)

(** [hex.EncodeToString(sha256.Sum256(evt.Serialize()))] *)
Definition computed_id (ev : Event) : string :=
  EncodeToString (Sum256 (Serialize ev)).

(** [case *nostr.EventEnvelope] *)
Definition handle_EventEnvelope (ev : Event) : M unit :=
  if negb (computed_id ev =? ID ev)%string then
    WriteJSON (OKEnvelope (ID ev) false "invalid: id is computed incorrectly")
  else
    match CheckSignature ev with
    | (_, Some _) =>
        WriteJSON (OKEnvelope (ID ev) false "error: failed to verify signature")
    | (false, None) =>
        WriteJSON (OKEnvelope (ID ev) false "invalid: signature is invalid")
    | (true, None) =>
        err <- (if Kind ev =? 5 then call_handleDeleteRequest ev
                else call_AddEvent ev) ;;
        match err with
        | None => WriteJSON (OKEnvelope (ID ev) true "")
        | Some msg =>
            WriteJSON (OKEnvelope (ID ev) false (NormalizeOKMessage msg "blocked"))
        end
    end.

(** [for _, filter := range env.Filters { total += ... }] *)
Fixpoint count_loop (filters : list Filter) (total : Z) : M Z :=
  match filters with
  | [] => ret total
  | filter :: rest =>
      n <- call_handleCountRequest filter ;;
      count_loop rest (Int64.add total n)
  end.

(** [case *nostr.CountEnvelope] *)
Definition handle_CountEnvelope (id : string) (filters : list Filter) : M unit :=
  if CountEvents_nil rl then
    WriteJSON
      (ClosedEnvelope id "unsupported: this relay does not support NIP-45")
  else
    total <- count_loop filters 0 ;;
    WriteJSON (CountEnvelope id [] (Some total)).

(** The loop of the [ReqEnvelope] case, carrying [isFullyRejected] and
    [reason]. *)
Fixpoint req_loop (id : string) (eose : nat) (filters : list Filter)
    (isFullyRejected : bool) (reason : string) : M (bool * string) :=
  match filters with
  | [] => ret (isFullyRejected, reason)
  | filter :: rest =>
      err <- call_handleRequest id eose filter ;;
      match err with
      | None => req_loop id eose rest false reason
      | Some msg => req_loop id eose rest isFullyRejected msg
      end
  end.

(** [case *nostr.ReqEnvelope] *)
Definition handle_ReqEnvelope (id : string) (filters : list Filter) : M unit :=
  eose <- new_WaitGroup ;;
  WaitGroup_Add eose (Z.of_nat (List.length filters)) ;;;
  r <- req_loop id eose filters true "" ;;
  let '(isFullyRejected, reason) := r in
  if isFullyRejected then
    WriteJSON (ClosedEnvelope id (NormalizeOKMessage reason "blocked"))
  else
    go_WaitThenWrite eose (EOSEEnvelope id) ;;;
    call_setListener id filters.

(** [case *nostr.AuthEnvelope] *)
Definition handle_AuthEnvelope (ev : Event) : M unit :=
  if negb (ServiceURL rl =? "")%string then
    w <- get_ws ;;
    match ValidateAuthEvent ev (Challenge w) (ServiceURL rl) with
    | (pubkey, true) =>
        assign_Authed pubkey ;;;
        close_WaitingForAuth ;;;
        c <- get_ctx ;;
        assign_ctx (WithAuth c pubkey) ;;;
        WriteJSON (OKEnvelope (ID ev) true "")
    | (_, false) =>
        WriteJSON (OKEnvelope (ID ev) false "error: failed to authenticate")
    end
  else ret tt.

(** The type switch on the decoded envelope.  Envelopes a client has no
    business sending match no case. *)
Definition handle_envelope (env : Envelope) : M unit :=
  match env with
  | EventEnvelope _ ev => handle_EventEnvelope ev
  | CountEnvelope id filters _ => handle_CountEnvelope id filters
  | ReqEnvelope id filters => handle_ReqEnvelope id filters
  | CloseEnvelope id => call_removeListenerId id
  | AuthEnvelope _ ev => handle_AuthEnvelope ev
  | _ => ret tt
  end.

(** The body of [go func(message []byte) { ... }(message)]. *)
Definition handle_message (message : string) : M unit :=
  assign_ctx Background ;;;
  match ParseMessage message with
  | None => ret tt
  | Some env => handle_envelope env
  end.

(** One message task after the other on the same connection. *)
Fixpoint handle_messages (messages : list string) : M unit :=
  match messages with
  | [] => ret tt
  | m :: rest => handle_message m ;;; handle_messages rest
  end.

(** ** The spawned goroutine *)

(** [wg.Wait()] returns once the counter is zero; until then the task is
    blocked ([None]). *)
Definition run_task (t : Task) (s : State) : option State :=
  match t with
  | WaitThenWrite g frame =>
      if groups s g =? 0 then Some (with_written (written s ++ [frame]) s)
      else None
  end.

(** ** Observations used to state the properties *)

(** The state in which the loop of the [ReqEnvelope] case starts: a fresh
    wait group seeded with the number of filters. *)
Definition req_begin (filters : list Filter) (s : State) : State :=
  let s1 :=
    with_groups (set_group (next_group s) 0 (groups s)) (S (next_group s)) s in
  with_groups
    (set_group (next_group s) (Z.of_nat (List.length filters)) (groups s1))
    (next_group s1) s1.

(** What the successive [handleRequest] calls of the loop return, and the
    state after the last one. *)
Fixpoint request_errors (id : string) (eose : nat) (filters : list Filter)
    (s : State) : list (option string) * State :=
  match filters with
  | [] => ([], s)
  | filter :: rest =>
      match call_handleRequest id eose filter s with
      | Returned err s' =>
          let '(errs, s'') := request_errors id eose rest s' in
          (err :: errs, s'')
      | Panicked _ s' => ([], s')
      end
  end.

(** The per-filter results of a subscription request received in [s]. *)
Definition req_outcomes (id : string) (filters : list Filter) (s : State)
  : list (option string) :=
  fst (request_errors id (next_group s) filters (req_begin filters s)).

Definition rejected (err : option string) : bool :=
  match err with
  | Some _ => true
  | None => false
  end.

(** The filters of a request whose call returned no error. *)
Fixpoint accepted_filters (filters : list Filter) (errs : list (option string))
  : list Filter :=
  match filters, errs with
  | filter :: rest, None :: errs' => filter :: accepted_filters rest errs'
  | _ :: rest, Some _ :: errs' => accepted_filters rest errs'
  | _, _ => []
  end.

(** The message of the last error of the list, [default] when there is
    none. *)
Fixpoint last_error (errs : list (option string)) (default : string) : string :=
  match errs with
  | [] => default
  | None :: rest => last_error rest default
  | Some msg :: rest => last_error rest msg
  end.

(** What the successive [handleCountRequest] calls return, and the state
    after the last one. *)
Fixpoint count_results (filters : list Filter) (s : State) : list Z * State :=
  match filters with
  | [] => ([], s)
  | filter :: rest =>
      match call_handleCountRequest filter s with
      | Returned n s' =>
          let '(ns, s'') := count_results rest s' in (n :: ns, s'')
      | Panicked _ s' => ([], s')
      end
  end.

(** The exact sum of a list of integers. *)
Definition sum (l : list Z) : Z := fold_right Z.add 0 l.

(** The filters handed to [setListener] in a call log. *)
Definition registered_filters (cs : list Call) : list Filter :=
  flat_map
    (fun c =>
       match c with
       | Call_setListener _ filters => filters
       | _ => []
       end)
    cs.

(** Number of frames of a given shape in a log of written frames. *)
Definition is_EOSE (e : Envelope) : bool :=
  match e with
  | EOSEEnvelope _ => true
  | _ => false
  end.

Definition is_Closed (e : Envelope) : bool :=
  match e with
  | ClosedEnvelope _ _ => true
  | _ => false
  end.

Definition count_frames (p : Envelope -> bool) (l : list Envelope) : nat :=
  List.length (filter p l).

(** The connection record built when the transport is upgraded:
    [&WebSocket{Challenge: ..., WaitingForAuth: make(chan struct{})}]. *)
Definition new_WebSocket (challenge : string) : WebSocket :=
  mkWebSocket challenge "" ChanOpen.

End Handlers.

Arguments Returned {Filter Ext A} a s.
Arguments Panicked {Filter Ext A} msg s.
Arguments Externals : clear implicits.
Arguments State : clear implicits.
Arguments Envelope : clear implicits.
Arguments Call : clear implicits.

(** ** A concrete relay

    An instance of the external functions on which the handler can be run:
    a filter is the number of stored events it matches, the collaborators
    keep count of the calls they served. *)
Module Sample.

(** [nostr.NormalizeOKMessage]: keep a reason that already starts with a
    one-word prefix followed by a colon and a space, otherwise put
    [prefix] in front. *)
Definition normalize (reason prefix : string) : string :=
  match index 0 ": " reason with
  | None => prefix ++ ": " ++ reason
  | Some idx =>
      match index 0 " " (substring 0 idx reason) with
      | Some _ => prefix ++ ": " ++ reason
      | None => reason
      end
  end.

Definition check_signature (ev : Event) : bool * option string :=
  if (Sig ev =? "")%string then (false, Some "signature is malformed")
  else if (Sig ev =? "sig:" ++ ID ev)%string then (true, None)
  else (false, None).

Definition validate_auth (ev : Event) (challenge url : string) : string * bool :=
  if (Kind ev =? 22242) && (Content ev =? challenge ++ "@" ++ url)%string
  then (PubKey ev, true)
  else ("", false).

Definition auth_event : Event :=
  mkEvent "a1" "alice" 0 22242 [] "c0ffee@wss://relay.example" "sig:a1".

Definition bad_auth_event : Event :=
  mkEvent "a2" "mallory" 0 22242 [] "deadbeef@wss://relay.example" "sig:a2".

Definition note : Event := mkEvent "id:hello" "alice" 0 1 [] "hello" "sig:id:hello".

Definition deletion : Event := mkEvent "id:gone" "alice" 0 5 [] "gone" "sig:id:gone".

Definition spam : Event := mkEvent "id:spam" "bob" 0 1 [] "spam" "sig:id:spam".

Definition forged : Event := mkEvent "id:other" "bob" 0 1 [] "hello" "sig:id:other".

Definition unsigned : Event := mkEvent "id:hello" "bob" 0 1 [] "hello" "".

Definition missigned : Event := mkEvent "id:hello" "bob" 0 1 [] "hello" "sig:x".

Definition parse (message : string) : option (Envelope Z) :=
  if (message =? "AUTH")%string then Some (AuthEnvelope None auth_event)
  else if (message =? "BADAUTH")%string then Some (AuthEnvelope None bad_auth_event)
  else if (message =? "EVENT")%string then Some (EventEnvelope None note)
  else if (message =? "REQ")%string then Some (ReqEnvelope "sub" [3; -1])
  else if (message =? "COUNT")%string then Some (CountEnvelope "q" [3; 4] None)
  else if (message =? "CLOSE")%string then Some (CloseEnvelope "sub")
  else None.

(** Events whose content is "spam" are refused by the store. *)
Definition store (c : Ctx) (ev : Event) (n : nat) : option string * nat :=
  ((if (Content ev =? "spam")%string then Some "spam is not welcome" else None),
   S n).

(** A filter is refused when it matches a negative number of events. *)
Definition request (c : Ctx) (id : string) (wg : Z) (w : WebSocket) (f : Z)
    (n : nat) : option string * Z * nat :=
  ((if f <? 0 then Some "blocked: filter invalidated" else None), wg - 1, S n).

#[export] Instance externals : Externals Z nat := {|
  Serialize := Content;
  Sum256 := fun b => b;
  EncodeToString := fun b => "id:" ++ b;
  CheckSignature := check_signature;
  NormalizeOKMessage := normalize;
  ValidateAuthEvent := validate_auth;
  ParseMessage := parse;
  handleDeleteRequest := store;
  AddEvent := store;
  handleCountRequest := fun _ _ f n => (Int64.wrap f, S n);
  handleRequest := request;
  setListener := fun _ _ _ n => S n;
  removeListenerId := fun _ _ n => S n
|}.

Definition relay : Relay := mkRelay "wss://relay.example" false.

(** The same relay without a counting function. *)
Definition relay_without_count : Relay := mkRelay "wss://relay.example" true.

(** A connection just accepted. *)
Definition start : State Z nat :=
  mkState (new_WebSocket "c0ffee") Background [] [] 0%nat (fun _ => 0) 0 [].

End Sample.

(** ** Observations on any envelope *)

Section Observations.

Context {Filter Ext : Type}.

(** The state a handler leaves, whether it returned or panicked. *)
Definition final_state {A : Type} (o : Outcome (Filter:=Filter) (Ext:=Ext) A)
  : State Filter Ext :=
  match o with
  | Returned _ s => s
  | Panicked _ s => s
  end.

(** The envelopes the handler answers with. *)
Definition is_reply (e : Envelope Filter) : bool :=
  match e with
  | OKEnvelope _ _ _ => true
  | ClosedEnvelope _ _ => true
  | CountEnvelope _ _ _ => true
  | _ => false
  end.

(** The envelopes that have a case in the type switch. *)
Definition has_case (e : Envelope Filter) : bool :=
  match e with
  | EventEnvelope _ _ => true
  | CountEnvelope _ _ _ => true
  | ReqEnvelope _ _ => true
  | CloseEnvelope _ => true
  | AuthEnvelope _ _ => true
  | _ => false
  end.

Definition is_Req (e : Envelope Filter) : bool :=
  match e with
  | ReqEnvelope _ _ => true
  | _ => false
  end.

End Observations.

(** ** The connection: registry, reader and writer goroutines *)

(** [strings.HasSuffix]: [len(s) >= len(suffix)] and the last
    [len(suffix)] bytes of [s] are [suffix]. *)
Definition HasSuffix (s suffix : string) : bool :=
  (String.length suffix <=? String.length s)%nat
  && (substring (String.length s - String.length suffix)
        (String.length suffix) s =? suffix)%string.

(** [rl.clients], a [sync.Map] from connections to [struct{}]: the set of
    its keys.  A connection is named by a number. *)
Definition clients_Load (conn : nat) (clients : list nat) : bool :=
  existsb (Nat.eqb conn) clients.

Definition clients_Store (conn : nat) (clients : list nat) : list nat :=
  if clients_Load conn clients then clients else conn :: clients.

Definition clients_Delete (conn : nat) (clients : list nat) : list nat :=
  filter (fun c => negb (Nat.eqb conn c)) clients.

(** Close codes listed in the reader, with the values its comments give. *)
Definition CloseNormalClosure : Z := 1000.
Definition CloseGoingAway : Z := 1001.
Definition CloseNoStatusReceived : Z := 1005.
Definition CloseAbnormalClosure : Z := 1006.

Section Connection.

(** The errors of [conn.ReadMessage], and the websocket library's
    [IsUnexpectedCloseError] and message type constants. *)
Variable Err : Type.
Variable IsUnexpectedCloseError : Err -> list Z -> bool.
Variable PingMessage PongMessage : Z.

(** A connection-established callback of [rl.OnConnect]. *)
Variable Hook : Type.

(** The relay fields read by the reader. *)
Record ConnConfig := mkConnConfig {
  MaxMessageSize : Z;
  PongWait : Z;
  OnConnect : list Hook
}.

(** What the two goroutines of a connection do, in order. *)
Inductive Action :=
| SetReadLimit (limit : Z)
| SetReadDeadline (wait : Z)
| SetPongHandler
| Call_onconnect (h : Hook)
| WriteMessage (typ : Z)
| Go_message (message : string)
| Log_unexpected_close (forwarded_for : string) (err : Err)
| Log_ping_error (err : string)
| TickerStop
| ConnClose
| ClientsDelete
| Call_removeListener.

(** One result of [conn.ReadMessage()]. *)
Inductive Read :=
| ReadMessage (typ : Z) (message : string)
| ReadError (err : Err).

(** The [for] loop of the reader over the successive results of
    [conn.ReadMessage()]: the actions taken, and whether the loop was left.
    With no result left the reader is blocked in the read. *)
Fixpoint read_loop (forwarded_for : string) (reads : list Read)
  : list Action * bool :=
  match reads with
  | [] => ([], false)
  | ReadError err :: _ =>
      ((if IsUnexpectedCloseError err
             [CloseNormalClosure; CloseGoingAway; CloseNoStatusReceived;
              CloseAbnormalClosure]
        then [Log_unexpected_close forwarded_for err]
        else []),
       true)
  | ReadMessage typ message :: rest =>
      let '(acts, exited) := read_loop forwarded_for rest in
      ((if typ =? PingMessage then WriteMessage PongMessage
        else Go_message message) :: acts,
       exited)
  end.

(** The deferred function of the reader, run on the registry as it is when
    the loop is left. *)
Definition reader_deferred (conn : nat) (clients : list nat)
  : list Action * list nat :=
  if clients_Load conn clients then
    ([TickerStop; ConnClose; ClientsDelete; Call_removeListener],
     clients_Delete conn clients)
  else ([TickerStop], clients).

(** What the reader does before its loop. *)
Definition reader_setup (cfg : ConnConfig) : list Action :=
  ([SetReadLimit (MaxMessageSize cfg); SetReadDeadline (PongWait cfg);
    SetPongHandler]
   ++ map Call_onconnect (OnConnect cfg))%list.

(** The reader goroutine; [clients] is the registry at the time the loop is
    left. *)
Definition reader (cfg : ConnConfig) (conn : nat) (forwarded_for : string)
    (reads : list Read) (clients : list nat)
  : list Action * bool * list nat :=
  let '(acts, exited) := read_loop forwarded_for reads in
  if exited then
    let '(cleanup, clients') := reader_deferred conn clients in
    ((reader_setup cfg ++ acts ++ cleanup)%list, true, clients')
  else ((reader_setup cfg ++ acts)%list, false, clients).

(** The [for] loop of the writer over the error of each
    [ws.WriteMessage(websocket.PingMessage, nil)], one per tick. *)
Fixpoint ping_loop (pings : list (option string)) : list Action * bool :=
  match pings with
  | [] => ([], false)
  | None :: rest =>
      let '(acts, exited) := ping_loop rest in
      (WriteMessage PingMessage :: acts, exited)
  | Some err :: _ =>
      (WriteMessage PingMessage
       :: (if negb (HasSuffix err "use of closed network connection")
           then [Log_ping_error err]
           else []),
       true)
  end.

(** The writer goroutine with its deferred function. *)
Definition writer (pings : list (option string)) : list Action * bool :=
  let '(acts, exited) := ping_loop pings in
  ((acts ++ (if exited then [TickerStop; ConnClose] else []))%list, exited).

(** The messages for which a task was started. *)
Definition started_messages (acts : list Action) : list string :=
  flat_map
    (fun a =>
       match a with
       | Go_message m => [m]
       | _ => []
       end)
    acts.

(** The types of the control frames written. *)
Definition written_types (acts : list Action) : list Z :=
  flat_map
    (fun a =>
       match a with
       | WriteMessage typ => [typ]
       | _ => []
       end)
    acts.

(** The callbacks called. *)
Definition called_hooks (acts : list Action) : list Hook :=
  flat_map
    (fun a =>
       match a with
       | Call_onconnect h => [h]
       | _ => []
       end)
    acts.

Definition is_log (a : Action) : bool :=
  match a with
  | Log_unexpected_close _ _ => true
  | Log_ping_error _ => true
  | _ => false
  end.

Definition is_ping (typ_message : Z * string) : bool :=
  fst typ_message =? PingMessage.

End Connection.

Arguments SetReadLimit {Err Hook} limit.
Arguments SetReadDeadline {Err Hook} wait.
Arguments SetPongHandler {Err Hook}.
Arguments Call_onconnect {Err Hook} h.
Arguments WriteMessage {Err Hook} typ.
Arguments Go_message {Err Hook} message.
Arguments Log_unexpected_close {Err Hook} forwarded_for err.
Arguments Log_ping_error {Err Hook} err.
Arguments TickerStop {Err Hook}.
Arguments ConnClose {Err Hook}.
Arguments ClientsDelete {Err Hook}.
Arguments Call_removeListener {Err Hook}.
Arguments ReadMessage {Err} typ message.
Arguments ReadError {Err} err.
Arguments mkConnConfig {Hook} MaxMessageSize PongWait OnConnect.
Arguments MaxMessageSize {Hook} c.
Arguments PongWait {Hook} c.
Arguments OnConnect {Hook} c.
Arguments read_loop {Err} IsUnexpectedCloseError PingMessage PongMessage {Hook}
  forwarded_for reads.
Arguments reader_deferred {Err Hook} conn clients.
Arguments reader_setup {Err Hook} cfg.
Arguments reader {Err} IsUnexpectedCloseError PingMessage PongMessage {Hook}
  cfg conn forwarded_for reads clients.
Arguments ping_loop {Err} PingMessage {Hook} pings.
Arguments writer {Err} PingMessage {Hook} pings.
Arguments started_messages {Err Hook} acts.
Arguments written_types {Err Hook} acts.
Arguments called_hooks {Err Hook} acts.
Arguments is_log {Err Hook} a.

(** ** The relay information document *)

Section NIP11.

(** [nip11.RelayInformationDocument] and [*http.Request]. *)
Variable Info Request : Type.

(** The JSON encoding of the document. *)
Variable Encode : Info -> string.

(** An HTTP response: the headers set and the body written. *)
Record Response := mkResponse {
  headers : list (string * string);
  body : string
}.

(** The document after the loop over [rl.OverwriteRelayInformation]. *)
Definition overwritten_info (info : Info)
    (overwrites : list (Request -> Info -> Info)) (r : Request) : Info :=
  fold_left (fun doc ovw => ovw r doc) overwrites info.

(** [HandleNIP11]: [info] is the value [rl.Info] points to. *)
Definition HandleNIP11 (info : Info)
    (overwrites : list (Request -> Info -> Info)) (r : Request) : Response :=
  mkResponse [("Content-Type", "application/nostr+json")]
             (Encode (overwritten_info info overwrites r)).

End NIP11.

Arguments overwritten_info {Info Request} info overwrites r.
Arguments HandleNIP11 {Info Request} Encode info overwrites r.

(** A websocket library for the sample relay: an error is a close code, or
    0 for an error that is no close frame. *)
Module SampleConn.

Definition is_unexpected (err : Z) (expected : list Z) : bool :=
  negb (err =? 0) && negb (existsb (Z.eqb err) expected).

Definition config : ConnConfig string :=
  mkConnConfig 512000 60 ["greet"; "audit"].

Definition reads : list (Read Z) :=
  [ReadMessage 1 "EVENT"; ReadMessage 9 ""; ReadMessage 1 "REQ";
   ReadError 1002; ReadMessage 1 "COUNT"].

End SampleConn.

(** * Properties of the handler *)

Local Open Scope list_scope.

(** ** [int64] arithmetic *)

Lemma Int64_wrap_in_range (z : Z) : Int64.in_range z -> Int64.wrap z = z.
Proof.
  unfold Int64.in_range, Int64.wrap, Int64.half, Int64.modulus. intros H.
  rewrite Z.mod_small; lia.
Qed.

Lemma Int64_wrap_range (z : Z) : Int64.in_range (Int64.wrap z).
Proof.
  unfold Int64.in_range, Int64.wrap, Int64.half, Int64.modulus.
  pose proof (Z.mod_pos_bound (z + 2 ^ 63) (2 ^ 64) ltac:(lia)). lia.
Qed.

Lemma Int64_wrap_add_l (a b : Z) :
  Int64.wrap (Int64.wrap a + b) = Int64.wrap (a + b).
Proof.
  unfold Int64.wrap. f_equal.
  replace ((a + Int64.half) mod Int64.modulus - Int64.half + b + Int64.half)
    with ((a + Int64.half) mod Int64.modulus + b) by lia.
  rewrite Z.add_mod_idemp_l by (unfold Int64.modulus; lia).
  f_equal. lia.
Qed.

Lemma Int64_wrap_idem (a : Z) : Int64.wrap (Int64.wrap a) = Int64.wrap a.
Proof. apply Int64_wrap_in_range, Int64_wrap_range. Qed.

Section HandlerFacts.

Context {Filter Ext : Type} {X : Externals Filter Ext}.
Variable rl : Relay.

Abbreviation St := (State Filter Ext).

(** ** Event envelopes *)

(** Claim C3.  An Event envelope whose identifier is not the hash of its
    serialization is answered with one negative acknowledgment carrying
    "invalid: id is computed incorrectly"; no collaborator is called and
    their state is untouched. *)
Theorem event_id_mismatch_rejected (sub : option string) (ev : Event) (s : St) :
  computed_id ev <> ID ev ->
  exists s',
    handle_envelope rl (EventEnvelope sub ev) s = Returned tt s' /\
    written s' =
      written s
      ++ [OKEnvelope (ID ev) false "invalid: id is computed incorrectly"] /\
    calls s' = calls s /\
    ext s' = ext s /\
    spawned s' = spawned s.
Proof.
  intros Hid. apply String.eqb_neq in Hid.
  unfold handle_envelope, handle_EventEnvelope. rewrite Hid. simpl.
  eexists. split; [reflexivity|]. simpl. auto.
Qed.

(** Claim C4.  An Event envelope with the right identifier whose signature
    check returns an error, or returns false, is answered with one negative
    acknowledgment whose reason says that verification failed; no
    collaborator is called. *)
Theorem event_bad_signature_rejected (sub : option string) (ev : Event)
    (s : St) (ok : bool) (err : option string) :
  computed_id ev = ID ev ->
  CheckSignature ev = (ok, err) ->
  err <> None \/ ok = false ->
  exists s' reason,
    handle_envelope rl (EventEnvelope sub ev) s = Returned tt s' /\
    written s' = written s ++ [OKEnvelope (ID ev) false reason] /\
    reason =
      match err with
      | Some _ => "error: failed to verify signature"
      | None => "invalid: signature is invalid"
      end /\
    calls s' = calls s /\
    ext s' = ext s /\
    spawned s' = spawned s.
Proof.
  intros Hid Hsig Hbad. apply String.eqb_eq in Hid.
  unfold handle_envelope, handle_EventEnvelope. rewrite Hid, Hsig. simpl.
  destruct err as [msg|].
  - destruct ok; do 2 eexists; (split; [reflexivity|]); simpl; auto.
  - destruct Hbad as [Hbad | ->]; [congruence|].
    do 2 eexists. split; [reflexivity|]. simpl. auto.
Qed.

(** Claim C6.  An Event envelope that passes both gates is handed to the
    deletion collaborator when its kind is 5 and to [AddEvent] otherwise,
    once; one acknowledgment for the event's identifier is written,
    affirmative exactly when the collaborator returned no error, and
    carrying the normalized error message otherwise. *)
Theorem event_dispatched_and_acknowledged (sub : option string) (ev : Event)
    (s : St) (err : option string) (e' : Ext) :
  computed_id ev = ID ev ->
  CheckSignature ev = (true, None) ->
  (if Kind ev =? 5 then handleDeleteRequest else AddEvent) (ctx s) ev (ext s)
    = (err, e') ->
  exists s',
    handle_envelope rl (EventEnvelope sub ev) s = Returned tt s' /\
    calls s' =
      calls s
      ++ [if Kind ev =? 5 then Call_handleDeleteRequest ev
          else Call_AddEvent ev] /\
    ext s' = e' /\
    written s' =
      written s
      ++ [OKEnvelope (ID ev) (negb (rejected err))
            match err with
            | None => ""
            | Some msg => NormalizeOKMessage msg "blocked"
            end] /\
    spawned s' = spawned s.
Proof.
  intros Hid Hsig Hcall. apply String.eqb_eq in Hid.
  unfold handle_envelope, handle_EventEnvelope. rewrite Hid, Hsig. simpl.
  unfold bind, call_handleDeleteRequest, call_AddEvent.
  destruct (Kind ev =? 5); rewrite Hcall;
    destruct err; eexists; (split; [reflexivity|]); simpl; auto.
Qed.

(** ** Count envelopes *)

(** Claim C7.  Without a counting function the Count envelope is answered
    with one closed notice saying the capability is unsupported, and
    nothing else happens: no collaborator call, no count reply. *)
Theorem count_unsupported (id : string) (filters : list Filter)
    (c : option Z) (s : St) :
  CountEvents_nil rl = true ->
  exists s',
    handle_envelope rl (CountEnvelope id filters c) s = Returned tt s' /\
    written s' =
      written s
      ++ [ClosedEnvelope id "unsupported: this relay does not support NIP-45"] /\
    calls s' = calls s /\
    ext s' = ext s /\
    spawned s' = spawned s /\
    ws s' = ws s.
Proof.
  intros Hnil. unfold handle_envelope, handle_CountEnvelope.
  rewrite Hnil. eexists. split; [reflexivity|]. simpl. auto 6.
Qed.

(** The counting loop calls the collaborator once per filter, in order, and
    touches nothing else. *)
Lemma count_results_frame (filters : list Filter) :
  forall (s s' : St) (ns : list Z),
    count_results filters s = (ns, s') ->
    ws s' = ws s /\ ctx s' = ctx s /\ written s' = written s /\
    spawned s' = spawned s /\
    calls s' = calls s ++ map Call_handleCountRequest filters /\
    List.length ns = List.length filters.
Proof.
  induction filters as [|f rest IH]; simpl; intros s s' ns H.
  - inversion H; subst. rewrite app_nil_r. auto 6.
  - unfold call_handleCountRequest in H.
    destruct (handleCountRequest (ctx s) (ws s) f (ext s)) as [n e].
    destruct (count_results rest _) as [ns' s''] eqn:E.
    inversion H; subst. apply IH in E. simpl in E.
    destruct E as (-> & -> & -> & -> & -> & Hlen).
    rewrite <- app_assoc. simpl. auto 7.
Qed.

(** The total carried by the loop is the [int64] image of the exact sum. *)
Lemma count_loop_spec (filters : list Filter) :
  forall (total : Z) (s : St),
    Int64.wrap total = total ->
    count_loop filters total s =
      Returned (Int64.wrap (total + sum (fst (count_results filters s))))
               (snd (count_results filters s)).
Proof.
  induction filters as [|f rest IH]; simpl; intros total s Htotal.
  - unfold ret. rewrite Z.add_0_r, Htotal. reflexivity.
  - unfold bind, call_handleCountRequest.
    destruct (handleCountRequest (ctx s) (ws s) f (ext s)) as [n e].
    rewrite IH by apply Int64_wrap_idem.
    destruct (count_results rest _) as [ns s''].
    simpl. unfold Int64.add. rewrite Int64_wrap_add_l.
    f_equal. f_equal. lia.
Qed.

(** Claim C8, as the code has it.  With a counting function configured, a
    Count envelope is answered with one count envelope carrying the
    request's subscription id; the collaborator is called once per filter,
    in list order, duplicates included, and the total is the sum of the
    results reduced to a 64-bit signed integer, which is the exact sum
    whenever that sum fits in an [int64]. *)
Theorem count_total_is_int64_sum (id : string) (filters : list Filter)
    (c : option Z) (s : St) :
  CountEvents_nil rl = false ->
  exists s',
    handle_envelope rl (CountEnvelope id filters c) s = Returned tt s' /\
    written s' =
      written s
      ++ [CountEnvelope id []
            (Some (Int64.wrap (sum (fst (count_results filters s)))))] /\
    calls s' = calls s ++ map Call_handleCountRequest filters /\
    List.length (fst (count_results filters s)) = List.length filters /\
    spawned s' = spawned s /\
    (Int64.in_range (sum (fst (count_results filters s))) ->
     Int64.wrap (sum (fst (count_results filters s)))
       = sum (fst (count_results filters s))).
Proof.
  intros Hcfg. unfold handle_envelope, handle_CountEnvelope.
  rewrite Hcfg. unfold bind. rewrite count_loop_spec by reflexivity.
  destruct (count_results filters s) as [ns s1] eqn:E.
  apply count_results_frame in E.
  destruct E as (_ & _ & Hw & Hsp & Hc & Hlen).
  eexists. split; [reflexivity|]. simpl.
  rewrite Hw, Hc, Hsp. repeat split; auto.
  apply Int64_wrap_in_range.
Qed.

(** ** Subscription requests *)

Lemma set_group_same (g : nat) (v : Z) (m : nat -> Z) : set_group g v m g = v.
Proof. unfold set_group. rewrite Nat.eqb_refl. reflexivity. Qed.

Lemma request_errors_frame (id : string) (eose : nat) (filters : list Filter) :
  forall (s s' : St) (errs : list (option string)),
    request_errors id eose filters s = (errs, s') ->
    ws s' = ws s /\ ctx s' = ctx s /\ written s' = written s /\
    spawned s' = spawned s /\
    calls s' = calls s ++ map (Call_handleRequest id) filters /\
    List.length errs = List.length filters.
Proof.
  induction filters as [|f rest IH]; simpl; intros s s' errs H.
  - inversion H; subst. rewrite app_nil_r. auto 6.
  - unfold call_handleRequest in H.
    destruct (handleRequest _ _ _ _ _ _) as [[err v] e].
    destruct (request_errors id eose rest _) as [errs' s''] eqn:E.
    inversion H; subst. apply IH in E. simpl in E.
    destruct E as (-> & -> & -> & -> & -> & Hlen).
    rewrite <- app_assoc. simpl. auto 7.
Qed.

(** When every call leaves the counter one lower than it found it, the
    loop takes the counter down by the number of filters. *)
Lemma request_errors_counter (id : string) (eose : nat) (filters : list Filter) :
  (forall c i n w f e, snd (fst (handleRequest c i n w f e)) = n - 1) ->
  forall s : St,
    groups (snd (request_errors id eose filters s)) eose
      = groups s eose - Z.of_nat (List.length filters).
Proof.
  intros Hdone. induction filters as [|f rest IH]; intros s.
  - simpl. lia.
  - cbn [request_errors]. unfold call_handleRequest.
    pose proof (Hdone (ctx s) id (groups s eose) (ws s) f (ext s)) as Hv.
    destruct (handleRequest _ _ _ _ _ _) as [[err v] e]. simpl in Hv.
    specialize (IH (with_groups (set_group eose v (groups s)) (next_group s)
                      (with_call (Call_handleRequest id f) e s))).
    destruct (request_errors id eose rest _) as [errs' s''].
    simpl in *. rewrite IH, set_group_same. lia.
Qed.

(** What the loop computes: [isFullyRejected] stays true while every call
    fails, [reason] is the message of the last failure. *)
Lemma req_loop_spec (id : string) (eose : nat) (filters : list Filter) :
  forall (b : bool) (r : string) (s : St),
    req_loop id eose filters b r s =
      Returned
        (b && forallb rejected (fst (request_errors id eose filters s)),
         last_error (fst (request_errors id eose filters s)) r)
        (snd (request_errors id eose filters s)).
Proof.
  induction filters as [|f rest IH]; simpl; intros b r s.
  - unfold ret. rewrite andb_true_r. reflexivity.
  - unfold bind, call_handleRequest.
    destruct (handleRequest _ _ _ _ _ _) as [[err v] e].
    destruct err as [msg|]; rewrite IH;
      destruct (request_errors id eose rest _) as [errs s'']; simpl.
    + reflexivity.
    + rewrite andb_false_r. reflexivity.
Qed.

(** The [ReqEnvelope] case in one equation. *)
Lemma handle_ReqEnvelope_spec (id : string) (filters : list Filter) (s : St) :
  handle_ReqEnvelope id filters s =
    let errs := fst (request_errors id (next_group s) filters (req_begin filters s)) in
    let s1 := snd (request_errors id (next_group s) filters (req_begin filters s)) in
    if forallb rejected errs then
      WriteJSON
        (ClosedEnvelope id (NormalizeOKMessage (last_error errs "") "blocked")) s1
    else
      bind (go_WaitThenWrite (next_group s) (EOSEEnvelope id))
           (fun _ => call_setListener id filters) s1.
Proof.
  unfold handle_ReqEnvelope, bind at 1 2 3, new_WaitGroup, WaitGroup_Add.
  cbn [groups with_groups next_group].
  rewrite !set_group_same, Z.add_0_l.
  destruct (Z.ltb_spec (Z.of_nat (List.length filters)) 0) as [Hneg|_];
    [lia|].
  rewrite req_loop_spec. cbn zeta.
  change (with_groups _ _ (with_groups _ _ s)) with (req_begin filters s).
  simpl andb.
  destruct (forallb rejected _); reflexivity.
Qed.

Lemma forallb_rejected_true (errs : list (option string)) :
  Forall (fun err => err <> None) errs -> forallb rejected errs = true.
Proof.
  induction 1 as [|err errs Herr _ IH]; simpl; [reflexivity|].
  destruct err; [assumption | congruence].
Qed.

Lemma forallb_rejected_false (errs : list (option string)) :
  In None errs -> forallb rejected errs = false.
Proof.
  induction errs as [|err errs IH]; simpl; [tauto|].
  intros [-> | Hin]; [reflexivity|].
  rewrite IH by assumption. apply andb_false_r.
Qed.

Lemma registered_filters_app (l1 l2 : list (Call Filter)) :
  registered_filters (l1 ++ l2) = registered_filters l1 ++ registered_filters l2.
Proof. unfold registered_filters. apply flat_map_app. Qed.

Lemma registered_filters_requests (id : string) (filters : list Filter) :
  registered_filters (map (Call_handleRequest id) filters) = [].
Proof. induction filters; simpl; auto. Qed.

Lemma count_frames_app (p : Envelope Filter -> bool) (l1 l2 : list (Envelope Filter)) :
  count_frames p (l1 ++ l2) = (count_frames p l1 + count_frames p l2)%nat.
Proof. unfold count_frames. rewrite filter_app, length_app. reflexivity. Qed.

(** Counting frames after one more frame was written. *)
Ltac count_one_frame :=
  rewrite count_frames_app; unfold count_frames; simpl; lia.

Lemma last_error_snoc (errs : list (option string)) (msg : string) :
  forall default, last_error (errs ++ [Some msg]) default = msg.
Proof.
  induction errs as [|[m|] errs IH]; simpl; intros default; auto.
Qed.

(** Claim C10.  A request without filters counts as fully rejected: one
    closed notice whose reason is the normalized empty string, no
    collaborator call, no registration, no task that would write the
    end-of-stored-events marker. *)
Theorem req_without_filters_closed (id : string) (s : St) :
  exists s',
    handle_envelope rl (ReqEnvelope id []) s = Returned tt s' /\
    written s' =
      written s ++ [ClosedEnvelope id (NormalizeOKMessage "" "blocked")] /\
    calls s' = calls s /\
    ext s' = ext s /\
    spawned s' = spawned s /\
    count_frames is_EOSE (written s') = count_frames is_EOSE (written s).
Proof.
  unfold handle_envelope. rewrite handle_ReqEnvelope_spec. simpl.
  eexists. split; [reflexivity|]. simpl. repeat split.
  count_one_frame.
Qed.

(** Claim C5.  When every per-filter call returns an error, the handler
    writes one closed notice whose reason is the normalized message of the
    last error, never calls [setListener], starts no task and writes no
    end-of-stored-events marker. *)
Theorem req_fully_rejected_closed (id : string) (filters : list Filter) (s : St) :
  Forall (fun err => err <> None) (req_outcomes id filters s) ->
  exists s',
    handle_envelope rl (ReqEnvelope id filters) s = Returned tt s' /\
    written s' =
      written s
      ++ [ClosedEnvelope id
            (NormalizeOKMessage (last_error (req_outcomes id filters s) "")
               "blocked")] /\
    (forall errs msg,
        req_outcomes id filters s = errs ++ [Some msg] ->
        last_error (req_outcomes id filters s) "" = msg) /\
    calls s' = calls s ++ map (Call_handleRequest id) filters /\
    registered_filters (calls s') = registered_filters (calls s) /\
    spawned s' = spawned s /\
    count_frames is_EOSE (written s') = count_frames is_EOSE (written s) /\
    count_frames is_Closed (written s')
      = S (count_frames is_Closed (written s)).
Proof.
  intros Hall. unfold handle_envelope. rewrite handle_ReqEnvelope_spec.
  cbv zeta. unfold req_outcomes in *.
  rewrite (forallb_rejected_true _ Hall).
  destruct (request_errors id (next_group s) filters (req_begin filters s))
    as [errs s1] eqn:E.
  apply request_errors_frame in E. simpl in E.
  destruct E as (_ & _ & Hw & Hsp & Hc & _).
  eexists. split; [reflexivity|]. simpl. rewrite Hw, Hc, Hsp.
  repeat split.
  - intros errs' msg ->. apply last_error_snoc.
  - rewrite registered_filters_app, registered_filters_requests.
    apply app_nil_r.
  - count_one_frame.
  - count_one_frame.
Qed.

(** Claim C1, as the code has it.  When at least one per-filter call
    succeeds and at least one fails, the handler calls [setListener] once,
    with the whole filter list of the request, the rejected filters
    included; it writes no frame itself and starts one task, which writes
    the end-of-stored-events marker of the subscription once the wait group
    seeded with the number of filters is back to zero, and stays blocked
    until then.  If every per-filter call leaves the counter one lower, the
    counter is zero when the handler returns and the task writes exactly
    one marker. *)
Theorem req_partial_success (id : string) (filters : list Filter) (s : St) :
  In None (req_outcomes id filters s) ->
  (exists msg, In (Some msg) (req_outcomes id filters s)) ->
  exists s',
    handle_envelope rl (ReqEnvelope id filters) s = Returned tt s' /\
    calls s' =
      calls s ++ map (Call_handleRequest id) filters
      ++ [Call_setListener id filters] /\
    registered_filters (calls s') = registered_filters (calls s) ++ filters /\
    written s' = written s /\
    spawned s' =
      spawned s ++ [WaitThenWrite (next_group s) (EOSEEnvelope id)] /\
    (forall t : St,
        run_task (WaitThenWrite (next_group s) (EOSEEnvelope id)) t =
          if groups t (next_group s) =? 0
          then Some (with_written (written t ++ [EOSEEnvelope id]) t)
          else None) /\
    ((forall c i n w f e, snd (fst (handleRequest c i n w f e)) = n - 1) ->
     exists t',
       run_task (WaitThenWrite (next_group s) (EOSEEnvelope id)) s' = Some t' /\
       written t' = written s ++ [EOSEEnvelope id] /\
       count_frames is_EOSE (written t')
         = S (count_frames is_EOSE (written s))).
Proof.
  intros Hok _. unfold handle_envelope. rewrite handle_ReqEnvelope_spec.
  cbv zeta. unfold req_outcomes in *.
  rewrite (forallb_rejected_false _ Hok).
  pose proof (request_errors_counter id (next_group s) filters) as Hcnt.
  destruct (request_errors id (next_group s) filters (req_begin filters s))
    as [errs s1] eqn:E.
  pose proof (request_errors_frame _ _ _ _ _ _ E) as F. simpl in F.
  destruct F as (_ & _ & Hw & Hsp & Hc & _).
  eexists. split; [reflexivity|]. simpl. rewrite Hw, Hc, Hsp.
  repeat split.
  - rewrite <- app_assoc. reflexivity.
  - rewrite !registered_filters_app, registered_filters_requests. simpl.
    rewrite !app_nil_r. reflexivity.
  - intros Hdone. specialize (Hcnt Hdone (req_begin filters s)).
    rewrite E in Hcnt. simpl in Hcnt.
    rewrite set_group_same in Hcnt.
    replace (groups s1 (next_group s)) with 0 by lia. simpl.
    eexists. split; [reflexivity|]. simpl. rewrite ?Hw.
    split; [reflexivity|]. count_one_frame.
Qed.

(** ** Authentication *)

(** The first successful Auth envelope records the identity, closes the
    signal and acknowledges. *)
Lemma auth_first_success (ch : option string) (ev : Event) (s : St)
    (pubkey : string) :
  ServiceURL rl <> "" ->
  ValidateAuthEvent ev (Challenge (ws s)) (ServiceURL rl) = (pubkey, true) ->
  WaitingForAuth (ws s) = ChanOpen ->
  exists s',
    handle_envelope rl (AuthEnvelope ch ev) s = Returned tt s' /\
    ws s' = mkWebSocket (Challenge (ws s)) pubkey ChanClosed /\
    ctx s' = WithAuth (ctx s) pubkey /\
    written s' = written s ++ [OKEnvelope (ID ev) true ""].
Proof.
  intros Hurl Hval Hopen. apply String.eqb_neq in Hurl.
  unfold handle_envelope, handle_AuthEnvelope. rewrite Hurl. simpl.
  unfold bind at 1, get_ws. rewrite Hval.
  unfold bind, assign_Authed, close_WaitingForAuth. simpl. rewrite Hopen.
  eexists. split; [reflexivity|]. simpl. auto.
Qed.


(** Claim C9.  An Auth envelope that fails validation is answered with one
    negative acknowledgment carrying "error: failed to authenticate"; the
    connection record is left as it was, so the recorded identity keeps
    its value and an unfired signal stays unfired. *)
Theorem auth_failure_leaves_connection (ch : option string) (ev : Event)
    (s : St) (pubkey : string) :
  ServiceURL rl <> "" ->
  ValidateAuthEvent ev (Challenge (ws s)) (ServiceURL rl) = (pubkey, false) ->
  exists s',
    handle_envelope rl (AuthEnvelope ch ev) s = Returned tt s' /\
    written s' =
      written s ++ [OKEnvelope (ID ev) false "error: failed to authenticate"] /\
    ws s' = ws s /\
    Authed (ws s') = Authed (ws s) /\
    (WaitingForAuth (ws s) = ChanOpen -> WaitingForAuth (ws s') = ChanOpen) /\
    calls s' = calls s /\
    ext s' = ext s /\
    spawned s' = spawned s.
Proof.
  intros Hurl Hval. apply String.eqb_neq in Hurl.
  unfold handle_envelope, handle_AuthEnvelope. rewrite Hurl. simpl.
  unfold bind, get_ws. rewrite Hval.
  eexists. split; [reflexivity|]. simpl. auto 8.
Qed.

(** Only a successful Auth envelope closes the signal: every other
    envelope that is handled to the end leaves it as it was. *)
Lemma signal_closed_only_by_auth (env : Envelope Filter) (s s' : St) :
  handle_envelope rl env s = Returned tt s' ->
  WaitingForAuth (ws s) = ChanOpen ->
  WaitingForAuth (ws s') = ChanClosed ->
  exists ch ev pubkey,
    env = AuthEnvelope ch ev /\
    ValidateAuthEvent ev (Challenge (ws s)) (ServiceURL rl) = (pubkey, true).
Proof.
  intros Hrun Hopen Hclosed.
  assert (Hsame : ws s' = ws s -> False) by (intros E; congruence).
  destruct env as [sub ev|id filters|id filters c|msg|id|id|id r|id ok r|ch ev];
    simpl in Hrun; [exfalso; apply Hsame .. | idtac].
  - unfold handle_EventEnvelope in Hrun.
    destruct (negb _); [inversion Hrun; reflexivity|].
    destruct (CheckSignature ev) as [[|] [e|]];
      try (inversion Hrun; reflexivity).
    unfold bind, call_handleDeleteRequest, call_AddEvent in Hrun.
    destruct (Kind ev =? 5);
      [destruct (handleDeleteRequest _ _ _) as [[m|] e']
      |destruct (AddEvent _ _ _) as [[m|] e']];
      inversion Hrun; reflexivity.
  - rewrite handle_ReqEnvelope_spec in Hrun. cbv zeta in Hrun.
    destruct (request_errors id (next_group s) filters (req_begin filters s))
      as [errs s1] eqn:E.
    apply request_errors_frame in E. destruct E as (Hws & _).
    simpl in Hrun, Hws.
    destruct (forallb rejected errs); inversion Hrun; simpl; exact Hws.
  - unfold handle_CountEnvelope in Hrun.
    destruct (CountEvents_nil rl); [inversion Hrun; reflexivity|].
    unfold bind in Hrun. rewrite count_loop_spec in Hrun by reflexivity.
    destruct (count_results filters s) as [ns s1] eqn:E.
    apply count_results_frame in E. destruct E as (Hws & _).
    inversion Hrun. simpl. exact Hws.
  - inversion Hrun; reflexivity.
  - inversion Hrun; reflexivity.
  - inversion Hrun; reflexivity.
  - inversion Hrun; reflexivity.
  - inversion Hrun; reflexivity.
  - unfold handle_AuthEnvelope in Hrun.
    destruct (negb _); [|inversion Hrun; subst; congruence].
    unfold bind at 1, get_ws in Hrun.
    destruct (ValidateAuthEvent _ _ _) as [pubkey [|]] eqn:Hval.
    + exists ch, ev, pubkey. split; [reflexivity | exact Hval].
    + inversion Hrun; subst. simpl in Hclosed. congruence.
Qed.

End HandlerFacts.

(** * The handler on the sample relay *)

Module Runs.

Import Sample.

(** A forged identifier is refused before anything is stored. *)
Lemma event_id_mismatch_rejected_witness :
  computed_id forged <> ID forged /\
  exists s',
    handle_envelope relay (EventEnvelope None forged) start = Returned tt s' /\
    written s' =
      [OKEnvelope "id:other" false "invalid: id is computed incorrectly"] /\
    calls s' = [].
Proof.
  assert (H : computed_id forged <> ID forged) by (vm_compute; discriminate).
  split; [exact H|].
  destruct (event_id_mismatch_rejected relay None forged start H)
    as (s' & Hrun & Hw & Hc & _).
  exists s'. repeat split; assumption.
Defined.

(** A signature that verifies to false. *)
Lemma event_bad_signature_rejected_witness :
  computed_id missigned = ID missigned /\
  CheckSignature missigned = (false, None) /\
  exists s',
    handle_envelope relay (EventEnvelope None missigned) start = Returned tt s' /\
    written s' = [OKEnvelope "id:hello" false "invalid: signature is invalid"] /\
    calls s' = [].
Proof.
  assert (Hid : computed_id missigned = ID missigned) by reflexivity.
  assert (Hsig : CheckSignature missigned = (false, None)) by reflexivity.
  split; [exact Hid|]. split; [exact Hsig|].
  destruct (event_bad_signature_rejected relay None missigned start false None
              Hid Hsig (or_intror eq_refl))
    as (s' & reason & Hrun & Hw & Hreason & Hc & _).
  exists s'. subst reason. repeat split; assumption.
Defined.

(** A deletion request goes to the deletion collaborator. *)
Lemma event_dispatched_and_acknowledged_witness :
  computed_id deletion = ID deletion /\
  CheckSignature deletion = (true, None) /\
  exists s',
    handle_envelope relay (EventEnvelope None deletion) start = Returned tt s' /\
    calls s' = [Call_handleDeleteRequest deletion] /\
    written s' = [OKEnvelope "id:gone" true ""].
Proof.
  assert (Hid : computed_id deletion = ID deletion) by reflexivity.
  assert (Hsig : CheckSignature deletion = (true, None)) by reflexivity.
  split; [exact Hid|]. split; [exact Hsig|].
  destruct (event_dispatched_and_acknowledged relay None deletion start
              None 1%nat Hid Hsig eq_refl)
    as (s' & Hrun & Hc & _ & Hw & _).
  exists s'. repeat split; assumption.
Defined.

(** A Count envelope on a relay without counting function. *)
Lemma count_unsupported_witness :
  CountEvents_nil relay_without_count = true /\
  exists s',
    handle_envelope relay_without_count (CountEnvelope "q" [1] None) start
      = Returned tt s' /\
    written s' =
      [ClosedEnvelope "q" "unsupported: this relay does not support NIP-45"] /\
    calls s' = [].
Proof.
  split; [reflexivity|].
  destruct (count_unsupported relay_without_count "q" [1] None start eq_refl)
    as (s' & Hrun & Hw & Hc & _).
  exists s'. repeat split; assumption.
Defined.

(** Two filters matching three and four events. *)
Lemma count_total_is_int64_sum_witness :
  CountEvents_nil relay = false /\
  exists s',
    handle_envelope relay (CountEnvelope "q" [3; 4] None) start
      = Returned tt s' /\
    written s' = [CountEnvelope "q" [] (Some 7)] /\
    calls s' = [Call_handleCountRequest 3; Call_handleCountRequest 4].
Proof.
  split; [reflexivity|].
  destruct (count_total_is_int64_sum relay "q" [3; 4] None start eq_refl)
    as (s' & Hrun & Hw & Hc & _).
  exists s'. repeat split; assumption.
Defined.

(** Claim C8 as stated fails when the sum leaves [int64]: two filters that
    each count [math.MaxInt64] events are answered with a total of -2,
    while the sum of the two results is 18446744073709551614. *)
Lemma count_total_overflows :
  exists s',
    handle_envelope relay
      (CountEnvelope "q" [Int64.max_int; Int64.max_int] None) start
      = Returned tt s' /\
    fst (count_results [Int64.max_int; Int64.max_int] start)
      = [9223372036854775807; 9223372036854775807] /\
    written s' = [CountEnvelope "q" [] (Some (-2))] /\
    sum (fst (count_results [Int64.max_int; Int64.max_int] start))
      = 18446744073709551614 /\
    -2 <> sum (fst (count_results [Int64.max_int; Int64.max_int] start)).
Proof.
  eexists. split; [vm_compute; reflexivity|].
  repeat split; vm_compute; congruence.
Qed.

(** Every filter of the request is refused. *)
Lemma req_fully_rejected_closed_witness :
  Forall (fun err => err <> None) (req_outcomes "s" [-1; -2] start) /\
  exists s',
    handle_envelope relay (ReqEnvelope "s" [-1; -2]) start = Returned tt s' /\
    written s' = [ClosedEnvelope "s" "blocked: filter invalidated"] /\
    registered_filters (calls s') = [] /\
    spawned s' = [].
Proof.
  assert (H : Forall (fun err => err <> None) (req_outcomes "s" [-1; -2] start)).
  { vm_compute. repeat (constructor; [discriminate|]). constructor. }
  split; [exact H|].
  destruct (req_fully_rejected_closed relay "s" [-1; -2] start H)
    as (s' & Hrun & Hw & _ & _ & Hreg & Hsp & _).
  exists s'. repeat split; assumption.
Defined.

(** One filter accepted, one refused: both are registered, and the task
    writes the marker. *)
Lemma req_partial_success_witness :
  In None (req_outcomes "sub" [3; -1] start) /\
  (exists msg, In (Some msg) (req_outcomes "sub" [3; -1] start)) /\
  exists s' t',
    handle_envelope relay (ReqEnvelope "sub" [3; -1]) start = Returned tt s' /\
    registered_filters (calls s') = [3; -1] /\
    written s' = [] /\
    spawned s' = [WaitThenWrite 0 (EOSEEnvelope "sub")] /\
    run_task (WaitThenWrite 0 (EOSEEnvelope "sub")) s' = Some t' /\
    written t' = [EOSEEnvelope "sub"].
Proof.
  assert (H1 : In None (req_outcomes "sub" [3; -1] start))
    by (vm_compute; left; reflexivity).
  assert (H2 : exists msg, In (Some msg) (req_outcomes "sub" [3; -1] start))
    by (exists "blocked: filter invalidated"; vm_compute; right; left;
        reflexivity).
  split; [exact H1|]. split; [exact H2|].
  destruct (req_partial_success relay "sub" [3; -1] start H1 H2)
    as (s' & Hrun & _ & Hreg & Hw & Hsp & _ & Hdone).
  destruct (Hdone (fun c i n w f e => eq_refl)) as (t' & Htask & Hw' & _).
  exists s', t'. repeat split; assumption.
Defined.

(** Claim C1 as stated fails: in a request with the filters 3 and -1 the
    collaborator accepts 3 and refuses -1, and [setListener] is called with
    both, so the refused filter is registered. *)
Lemma req_registers_rejected_filter :
  exists s',
    handle_envelope relay (ReqEnvelope "sub" [3; -1]) start = Returned tt s' /\
    req_outcomes "sub" [3; -1] start
      = [None; Some "blocked: filter invalidated"] /\
    accepted_filters [3; -1] (req_outcomes "sub" [3; -1] start) = [3] /\
    registered_filters (calls s') = [3; -1] /\
    registered_filters (calls s')
      <> accepted_filters [3; -1] (req_outcomes "sub" [3; -1] start).
Proof.
  eexists. split; [vm_compute; reflexivity|].
  repeat split; vm_compute; congruence.
Qed.

(** An Auth envelope signed for another challenge. *)
Lemma auth_failure_leaves_connection_witness :
  ServiceURL relay <> "" /\
  ValidateAuthEvent bad_auth_event (Challenge (ws start)) (ServiceURL relay)
    = ("", false) /\
  exists s',
    handle_envelope relay (AuthEnvelope None bad_auth_event) start
      = Returned tt s' /\
    written s' = [OKEnvelope "a2" false "error: failed to authenticate"] /\
    ws s' = new_WebSocket "c0ffee".
Proof.
  assert (H : ServiceURL relay <> "") by (vm_compute; discriminate).
  assert (Hval : ValidateAuthEvent bad_auth_event (Challenge (ws start))
                   (ServiceURL relay) = ("", false)) by reflexivity.
  split; [exact H|]. split; [exact Hval|].
  destruct (auth_failure_leaves_connection relay None bad_auth_event start ""
              H Hval)
    as (s' & Hrun & Hw & Hws & _).
  exists s'. repeat split; assumption.
Defined.

(** Claim C2 on the code.  The same valid Auth message sent twice on a fresh
    connection: the first is acknowledged and closes the signal, which was
    open; the second does not return: [close] panics on the closed channel
    after the identity was assigned again, and no second acknowledgment is
    written. *)
Theorem second_auth_panics :
  exists s1 s2,
    WaitingForAuth (ws start) = ChanOpen /\
    handle_message relay "AUTH" start = Returned tt s1 /\
    WaitingForAuth (ws s1) = ChanClosed /\
    written s1 = [OKEnvelope "a1" true ""] /\
    handle_message relay "AUTH" s1 = Panicked "close of closed channel" s2 /\
    written s2 = written s1 /\
    handle_messages relay ["AUTH"; "AUTH"] start
      = Panicked "close of closed channel" s2.
Proof.
  do 2 eexists. split; [reflexivity|].
  split; [vm_compute; reflexivity|].
  repeat split; vm_compute; reflexivity.
Qed.

End Runs.

(** * Further properties of the message handler *)

Section EnvelopeFacts.

Context {Filter Ext : Type} {X : Externals Filter Ext}.
Variable rl : Relay.

Abbreviation St := (State Filter Ext).

Lemma count_results_groups (filters : list Filter) :
  forall (s s' : St) (ns : list Z),
    count_results filters s = (ns, s') ->
    groups s' = groups s /\ next_group s' = next_group s.
Proof.
  induction filters as [|f rest IH]; simpl; intros s s' ns H.
  - inversion H; subst. auto.
  - unfold call_handleCountRequest in H.
    destruct (handleCountRequest (ctx s) (ws s) f (ext s)) as [n e].
    destruct (count_results rest _) as [ns' s''] eqn:E.
    inversion H; subst. apply IH in E. simpl in E. exact E.
Qed.

Lemma request_errors_groups (id : string) (eose : nat) (filters : list Filter) :
  forall (s s' : St) (errs : list (option string)),
    request_errors id eose filters s = (errs, s') ->
    next_group s' = next_group s /\
    forall k, k <> eose -> groups s' k = groups s k.
Proof.
  induction filters as [|f rest IH]; simpl; intros s s' errs H.
  - inversion H; subst. auto.
  - unfold call_handleRequest in H.
    destruct (handleRequest _ _ _ _ _ _) as [[err v] e].
    destruct (request_errors id eose rest _) as [errs' s''] eqn:E.
    inversion H; subst. apply IH in E. simpl in E.
    destruct E as [Hn Hg]. split; [exact Hn|].
    intros k Hk. rewrite (Hg k Hk). unfold set_group.
    destruct (Nat.eqb_spec k eose); [contradiction | reflexivity].
Qed.

(** The [EventEnvelope] case always returns, with one acknowledgment. *)
Lemma handle_EventEnvelope_run (ev : Event) (s : St) :
  exists s' ok reason,
    handle_EventEnvelope ev s = Returned tt s' /\
    written s' = written s ++ [OKEnvelope (ID ev) ok reason] /\
    ws s' = ws s /\
    spawned s' = spawned s /\
    groups s' = groups s /\
    next_group s' = next_group s /\
    (ok = true ->
     reason = "" /\
     computed_id ev = ID ev /\
     CheckSignature ev = (true, None) /\
     exists c, calls s' = calls s ++ [c]).
Proof.
  unfold handle_EventEnvelope.
  destruct (computed_id ev =? ID ev)%string eqn:Hid; simpl.
  - apply String.eqb_eq in Hid.
    destruct (CheckSignature ev) as [[|] [e|]] eqn:Hsig;
      try (do 3 eexists; split; [reflexivity|]; simpl;
           repeat split; discriminate).
    unfold bind, call_handleDeleteRequest, call_AddEvent.
    destruct (Kind ev =? 5);
      [destruct (handleDeleteRequest _ _ _) as [[m|] e']
      |destruct (AddEvent _ _ _) as [[m|] e']];
      do 3 eexists; (split; [reflexivity|]); simpl;
      repeat split; try discriminate; eauto.
  - do 3 eexists. split; [reflexivity|]. simpl. repeat split; discriminate.
Qed.

(** The [CountEnvelope] case always returns, with one reply. *)
Lemma handle_CountEnvelope_run (id : string) (filters : list Filter) (s : St) :
  exists s' frame,
    handle_CountEnvelope rl id filters s = Returned tt s' /\
    written s' = written s ++ [frame] /\
    is_reply frame = true /\
    ws s' = ws s /\
    spawned s' = spawned s /\
    groups s' = groups s /\
    next_group s' = next_group s.
Proof.
  unfold handle_CountEnvelope. destruct (CountEvents_nil rl).
  - do 2 eexists. split; [reflexivity|]. simpl. auto 7.
  - unfold bind. rewrite count_loop_spec by reflexivity.
    destruct (count_results filters s) as [ns s1] eqn:E.
    destruct (count_results_frame _ _ _ _ E) as (Hws & _ & Hw & Hsp & _).
    destruct (count_results_groups _ _ _ _ E) as (Hg & Hn).
    do 2 eexists. split; [reflexivity|]. simpl.
    rewrite Hw, Hws, Hsp, Hg, Hn. auto 7.
Qed.

(** The [ReqEnvelope] case always returns; it writes a closed notice or
    starts a task, and uses a wait group of its own. *)
Lemma handle_ReqEnvelope_run (id : string) (filters : list Filter) (s : St) :
  exists s' l t,
    handle_ReqEnvelope id filters s = Returned tt s' /\
    written s' = written s ++ l /\
    (List.length l <= 1)%nat /\
    forallb is_reply l = true /\
    spawned s' = spawned s ++ t /\
    (List.length l + List.length t = 1)%nat /\
    (forall task, In task t ->
                  task = WaitThenWrite (next_group s) (EOSEEnvelope id)) /\
    ws s' = ws s /\
    next_group s' = S (next_group s) /\
    (forall k, k <> next_group s -> groups s' k = groups s k).
Proof.
  rewrite handle_ReqEnvelope_spec. cbv zeta.
  destruct (request_errors id (next_group s) filters (req_begin filters s))
    as [errs s1] eqn:E.
  destruct (request_errors_frame _ _ _ _ _ _ E) as (Hws & _ & Hw & Hsp & _).
  destruct (request_errors_groups _ _ _ _ _ _ E) as (Hn & Hg).
  simpl in Hws, Hw, Hsp, Hn, Hg. simpl fst. simpl snd.
  assert (Hgroups : forall k, k <> next_group s -> groups s1 k = groups s k).
  { intros k Hk. rewrite (Hg k Hk). unfold set_group.
    destruct (Nat.eqb_spec k (next_group s)); [contradiction | reflexivity]. }
  destruct (forallb rejected errs).
  - eexists.
    exists [ClosedEnvelope id (NormalizeOKMessage (last_error errs "") "blocked")],
      [].
    split; [reflexivity|]. simpl. rewrite Hw, Hsp, Hws, Hn, app_nil_r.
    repeat split; auto; intros task [].
  - eexists. exists [], [WaitThenWrite (next_group s) (EOSEEnvelope id)].
    split; [reflexivity|]. simpl. rewrite Hw, Hsp, Hws, Hn, app_nil_r.
    repeat split; auto; intros task [<- | []]; reflexivity.
Qed.

(** The [AuthEnvelope] case: at most one acknowledgment, nothing else but
    the connection record is touched, and the challenge is kept. *)
Lemma handle_AuthEnvelope_run (ev : Event) (s : St) :
  exists l,
    written (final_state (handle_AuthEnvelope rl ev s)) = written s ++ l /\
    (List.length l <= 1)%nat /\
    forallb is_reply l = true /\
    Challenge (ws (final_state (handle_AuthEnvelope rl ev s)))
      = Challenge (ws s) /\
    spawned (final_state (handle_AuthEnvelope rl ev s)) = spawned s /\
    groups (final_state (handle_AuthEnvelope rl ev s)) = groups s /\
    next_group (final_state (handle_AuthEnvelope rl ev s)) = next_group s /\
    calls (final_state (handle_AuthEnvelope rl ev s)) = calls s.
Proof.
  remember (handle_AuthEnvelope rl ev s) as o eqn:Ho.
  unfold handle_AuthEnvelope in Ho. destruct (negb _).
  - unfold bind at 1, get_ws in Ho.
    destruct (ValidateAuthEvent _ _ _) as [pubkey [|]].
    + unfold bind, assign_Authed, close_WaitingForAuth in Ho. simpl in Ho.
      destruct (WaitingForAuth (ws s)); simpl in Ho; subst o.
      * exists [OKEnvelope (ID ev) true ""]. simpl. repeat split; auto.
      * exists []. rewrite app_nil_r. simpl. repeat split; auto.
    + subst o.
      exists [OKEnvelope (ID ev) false "error: failed to authenticate"].
      simpl. repeat split; auto.
  - subst o. exists []. simpl. rewrite app_nil_r. repeat split; auto.
Qed.

(** What every case of the type switch has in common. *)
Lemma handle_envelope_frame (env : Envelope Filter) (s : St) :
  Challenge (ws (final_state (handle_envelope rl env s))) = Challenge (ws s) /\
  (exists l,
      written (final_state (handle_envelope rl env s)) = written s ++ l /\
      (List.length l <= 1)%nat /\
      forallb is_reply l = true /\
      (has_case env = false -> l = []) /\
      (forall id, env = CloseEnvelope id -> l = [])) /\
  (is_Req env = false ->
   spawned (final_state (handle_envelope rl env s)) = spawned s /\
   groups (final_state (handle_envelope rl env s)) = groups s /\
   next_group (final_state (handle_envelope rl env s)) = next_group s).
Proof.
  assert (Hquiet : forall s' : St,
             ws s' = ws s -> written s' = written s ->
             spawned s' = spawned s -> groups s' = groups s ->
             next_group s' = next_group s ->
             Challenge (ws s') = Challenge (ws s) /\
             (exists l,
                 written s' = written s ++ l /\ (List.length l <= 1)%nat /\
                 forallb is_reply l = true /\ (has_case env = false -> l = []) /\
                 (forall id, env = CloseEnvelope id -> l = [])) /\
             (is_Req env = false ->
              spawned s' = spawned s /\ groups s' = groups s /\
              next_group s' = next_group s)).
  { intros s' Hws Hw Hsp Hg Hn. rewrite Hws. split; [reflexivity|]. split.
    - exists []. rewrite app_nil_r. simpl. auto 6.
    - auto. }
  destruct env as [sub ev|id filters|id filters c|msg|id|id|id r|id ok r|ch ev];
    cbn [handle_envelope]; try (apply Hquiet; reflexivity); clear Hquiet.
  - destruct (handle_EventEnvelope_run ev s)
      as (s' & ok & reason & -> & Hw & Hws & Hsp & Hg & Hn & _).
    simpl. rewrite Hws. split; [reflexivity|]. split; [|auto].
    exists [OKEnvelope (ID ev) ok reason]. simpl.
    repeat split; auto; discriminate.
  - destruct (handle_ReqEnvelope_run id filters s)
      as (s' & l & t & -> & Hw & Hlen & Hrep & _ & _ & _ & Hws & _).
    simpl. rewrite Hws. split; [reflexivity|]. split; [|discriminate].
    exists l. repeat split; auto; discriminate.
  - destruct (handle_CountEnvelope_run id filters s)
      as (s' & frame & -> & Hw & Hrep & Hws & Hsp & Hg & Hn).
    simpl. rewrite Hws. split; [reflexivity|]. split; [|auto].
    exists [frame]. simpl. rewrite Hrep.
    repeat split; auto; discriminate.
  - destruct (handle_AuthEnvelope_run ev s)
      as (l & Hw & Hlen & Hrep & Hch & Hsp & Hg & Hn & _).
    split; [exact Hch|]. split; [|auto].
    exists l. repeat split; auto; discriminate.
Qed.

(** A message that decodes to nothing, or to an envelope without a case in
    the switch, is dropped: the context is reset and nothing else
    happens. *)
Theorem unhandled_message_ignored (message : string) (s : St) :
  match ParseMessage message with
  | None => True
  | Some env => has_case env = false
  end ->
  handle_message rl message s = Returned tt (with_ctx Background s).
Proof.
  unfold handle_message, bind, assign_ctx.
  destruct (ParseMessage message) as [env|]; [|reflexivity].
  destruct env; simpl; intros H; try discriminate; reflexivity.
Qed.

(** Without a service URL an Auth envelope is ignored whatever it carries:
    no validation, no acknowledgment, the state is left as it is. *)
Theorem auth_disabled_ignored (ch : option string) (ev : Event) (s : St) :
  ServiceURL rl = "" ->
  handle_envelope rl (AuthEnvelope ch ev) s = Returned tt s.
Proof.
  intros Hurl. unfold handle_envelope, handle_AuthEnvelope.
  rewrite Hurl. reflexivity.
Qed.

(** Whatever messages are handled on a connection, and whether or not one
    of them panics, the challenge of the connection stays the same. *)
Theorem challenge_fixed (messages : list string) :
  forall s : St,
    Challenge (ws (final_state (handle_messages rl messages s)))
      = Challenge (ws s).
Proof.
  induction messages as [|m rest IH]; intros s; [reflexivity|].
  cbn [handle_messages]. unfold bind at 1.
  assert (Hm : Challenge (ws (final_state (handle_message rl m s)))
               = Challenge (ws s)).
  { unfold handle_message, bind, assign_ctx.
    destruct (ParseMessage m) as [env|]; [|reflexivity].
    destruct (handle_envelope_frame env (with_ctx Background s)) as [H _].
    exact H. }
  destruct (handle_message rl m s) as [[] s1|msg s1]; simpl in Hm.
  - rewrite IH. exact Hm.
  - exact Hm.
Qed.

(** Handling one envelope appends at most one frame to what was written,
    and that frame is an OK, a closed notice or a count reply; a Close
    envelope and the envelopes without a case get no answer. *)
Theorem at_most_one_reply (env : Envelope Filter) (s : St) :
  exists l,
    written (final_state (handle_envelope rl env s)) = written s ++ l /\
    (List.length l <= 1)%nat /\
    forallb is_reply l = true /\
    (has_case env = false -> l = []) /\
    (forall id, env = CloseEnvelope id -> l = []).
Proof. exact (proj1 (proj2 (handle_envelope_frame env s))). Qed.

(** Only a subscription request starts a task or touches a wait group. *)
Theorem only_req_starts_tasks (env : Envelope Filter) (s : St) :
  is_Req env = false ->
  spawned (final_state (handle_envelope rl env s)) = spawned s /\
  groups (final_state (handle_envelope rl env s)) = groups s /\
  next_group (final_state (handle_envelope rl env s)) = next_group s.
Proof. exact (proj2 (proj2 (handle_envelope_frame env s))). Qed.



(** A request of which every filter is accepted: the registered filters are
    the accepted ones, in order, no frame is written and one task waits to
    write the end-of-stored-events marker. *)
Theorem req_all_accepted_registers (id : string) (filters : list Filter)
    (s : St) :
  filters <> [] ->
  Forall (fun err => err = None) (req_outcomes id filters s) ->
  exists s',
    handle_envelope rl (ReqEnvelope id filters) s = Returned tt s' /\
    registered_filters (calls s') = registered_filters (calls s) ++ filters /\
    accepted_filters filters (req_outcomes id filters s) = filters /\
    written s' = written s /\
    spawned s' =
      spawned s ++ [WaitThenWrite (next_group s) (EOSEEnvelope id)].
Proof.
  intros Hne Hall. cbn [handle_envelope]. rewrite handle_ReqEnvelope_spec.
  cbv zeta. unfold req_outcomes in *.
  destruct (request_errors id (next_group s) filters (req_begin filters s))
    as [errs s1] eqn:E.
  pose proof (request_errors_frame _ _ _ _ _ _ E) as F. simpl in F.
  destruct F as (_ & _ & Hw & Hsp & Hc & Hlen).
  simpl in Hall |- *.
  assert (Hin : In None errs).
  { destruct errs as [|e errs'].
    - destruct filters; [congruence | discriminate].
    - inversion Hall; subst. left. reflexivity. }
  rewrite (forallb_rejected_false _ Hin).
  eexists. split; [reflexivity|]. simpl. rewrite Hw, Hc, Hsp.
  repeat split.
  - rewrite !registered_filters_app, registered_filters_requests. simpl.
    rewrite !app_nil_r. reflexivity.
  - clear - Hall Hlen. revert errs Hall Hlen.
    induction filters as [|f rest IH]; intros errs Hall Hlen; [reflexivity|].
    destruct errs as [|e errs']; [discriminate|].
    inversion Hall; subst. simpl. f_equal. apply IH; auto.
Qed.


Lemma sum_Permutation (l l' : list Z) : Permutation l l' -> sum l = sum l'.
Proof.
  unfold sum. induction 1; simpl; lia.
Qed.

Lemma count_results_pure (cnt : Filter -> Z) (filters : list Filter) :
  (forall c w f e, fst (handleCountRequest c w f e) = cnt f) ->
  forall s : St, fst (count_results filters s) = map cnt filters.
Proof.
  intros Hpure. induction filters as [|f rest IH]; intros s; [reflexivity|].
  cbn [count_results]. unfold call_handleCountRequest.
  pose proof (Hpure (ctx s) (ws s) f (ext s)) as Hf.
  destruct (handleCountRequest (ctx s) (ws s) f (ext s)) as [n e].
  simpl in Hf. subst n.
  specialize (IH (with_call (Call_handleCountRequest f) e s)).
  destruct (count_results rest _) as [ns s'']. simpl in *.
  rewrite IH. reflexivity.
Qed.

(** When the count of a filter does not depend on the calls made before,
    the total that is sent does not depend on the order of the filters. *)
Theorem count_total_ignores_filter_order (id : string)
    (filters filters' : list Filter) (c c' : option Z) (s : St)
    (cnt : Filter -> Z) :
  CountEvents_nil rl = false ->
  (forall cx w f e, fst (handleCountRequest cx w f e) = cnt f) ->
  Permutation filters filters' ->
  written (final_state (handle_envelope rl (CountEnvelope id filters c) s))
    = written s ++ [CountEnvelope id [] (Some (Int64.wrap (sum (map cnt filters))))]
  /\
  written (final_state (handle_envelope rl (CountEnvelope id filters' c') s))
    = written (final_state (handle_envelope rl (CountEnvelope id filters c) s)).
Proof.
  intros Hcfg Hpure Hperm.
  assert (Hrun : forall fs co,
             written (final_state (handle_envelope rl (CountEnvelope id fs co) s))
             = written s
               ++ [CountEnvelope id [] (Some (Int64.wrap (sum (map cnt fs))))]).
  { intros fs co. cbn [handle_envelope]. unfold handle_CountEnvelope.
    rewrite Hcfg. unfold bind. rewrite count_loop_spec by reflexivity.
    rewrite (count_results_pure cnt fs Hpure).
    destruct (count_results fs s) as [ns s1] eqn:E.
    destruct (count_results_frame _ _ _ _ E) as (_ & _ & Hw & _).
    simpl. rewrite Hw. reflexivity. }
  split; [apply Hrun|].
  rewrite !Hrun.
  rewrite (sum_Permutation _ _ (Permutation_map cnt Hperm)). reflexivity.
Qed.

(** A Count envelope without filters is answered with a total of zero,
    without any call to the collaborator. *)
Theorem count_without_filters_is_zero (id : string) (c : option Z) (s : St) :
  CountEvents_nil rl = false ->
  handle_envelope rl (CountEnvelope id [] c) s =
    Returned tt (with_written (written s ++ [CountEnvelope id [] (Some 0)]) s).
Proof.
  intros Hcfg. cbn [handle_envelope]. unfold handle_CountEnvelope.
  rewrite Hcfg. reflexivity.
Qed.

End EnvelopeFacts.

(** * Properties of the connection goroutines *)

Lemma length_append (a b : string) :
  String.length (a ++ b)%string = (String.length a + String.length b)%nat.
Proof. induction a as [|c a IH]; simpl; [reflexivity | rewrite IH; reflexivity]. Qed.

Lemma substring_whole (s : string) : substring 0 (String.length s) s = s.
Proof. induction s as [|c s IH]; simpl; [reflexivity | rewrite IH; reflexivity]. Qed.

Lemma substring_skip (a b : string) :
  substring (String.length a) (String.length b) (a ++ b)%string = b.
Proof. induction a as [|c a IH]; simpl; [apply substring_whole | exact IH]. Qed.

(** [HasSuffix] accepts every string that ends with the suffix. *)
Lemma HasSuffix_append (a suffix : string) :
  HasSuffix (a ++ suffix)%string suffix = true.
Proof.
  unfold HasSuffix. rewrite length_append.
  replace (String.length a + String.length suffix - String.length suffix)%nat
    with (String.length a) by lia.
  rewrite substring_skip, String.eqb_refl, andb_true_r.
  apply Nat.leb_le. lia.
Qed.

Lemma clients_Load_Delete (c conn : nat) (clients : list nat) :
  clients_Load c (clients_Delete conn clients)
    = clients_Load c clients && negb (Nat.eqb conn c).
Proof.
  unfold clients_Load, clients_Delete.
  induction clients as [|x rest IH]; simpl; [reflexivity|].
  destruct (Nat.eqb_spec conn x) as [->|Hx]; simpl.
  - rewrite IH. destruct (Nat.eqb_spec c x) as [->|Hc]; simpl.
    + rewrite Nat.eqb_refl. simpl. rewrite andb_false_r. reflexivity.
    + reflexivity.
  - rewrite IH. destruct (Nat.eqb_spec c x) as [->|Hc]; simpl.
    + destruct (Nat.eqb_spec conn x); [contradiction | reflexivity].
    + reflexivity.
Qed.

Lemma clients_Delete_absent (conn : nat) (clients : list nat) :
  clients_Load conn clients = false -> clients_Delete conn clients = clients.
Proof.
  unfold clients_Load, clients_Delete.
  induction clients as [|x rest IH]; simpl; [reflexivity|].
  intros H. apply orb_false_iff in H. destruct H as [Hx Hrest].
  rewrite Hx. simpl. rewrite IH by assumption. reflexivity.
Qed.

Section ConnectionFacts.

Variable Err : Type.
Variable IsUnexpectedCloseError : Err -> list Z -> bool.
Variable PingMessage PongMessage : Z.
Variable Hook : Type.

Abbreviation Act := (Action Err Hook).
Abbreviation loop := (read_loop (Hook:=Hook) IsUnexpectedCloseError
                        PingMessage PongMessage).

(** The reader answers every ping frame read before the first error with a
    pong and starts no task for it; every other frame starts one task, in
    the order read; nothing read after the first error is handled, and the
    loop is left. *)
Theorem reader_dispatches_until_first_error (forwarded_for : string)
    (frames : list (Z * string)) (err : Err) (rest : list (Read Err)) :
  let reads :=
    map (fun f => ReadMessage (fst f) (snd f)) frames ++ ReadError err :: rest in
  started_messages (fst (loop forwarded_for reads))
    = map snd (filter (fun f => negb (is_ping PingMessage f)) frames) /\
  written_types (fst (loop forwarded_for reads))
    = repeat PongMessage (List.length (filter (is_ping PingMessage) frames)) /\
  snd (loop forwarded_for reads) = true.
Proof.
  cbv zeta. induction frames as [|[typ m] frames IH]; simpl.
  - destruct (IsUnexpectedCloseError err _); simpl; auto.
  - destruct (loop forwarded_for _) as [acts exited].
    simpl in IH. destruct IH as (Hs & Hw & He).
    unfold is_ping. simpl.
    destruct (typ =? PingMessage); simpl; rewrite Hs, Hw; auto.
Qed.

Lemma called_hooks_app (l1 l2 : list Act) :
  called_hooks (l1 ++ l2) = called_hooks l1 ++ called_hooks l2.
Proof. unfold called_hooks. apply flat_map_app. Qed.

Lemma read_loop_calls_no_hook (forwarded_for : string) (reads : list (Read Err)) :
  called_hooks (fst (loop forwarded_for reads)) = [].
Proof.
  induction reads as [|[typ m|err] rest IH]; simpl; [reflexivity| |].
  - destruct (loop forwarded_for rest) as [acts exited]. simpl in *.
    destruct (typ =? PingMessage); exact IH.
  - destruct (IsUnexpectedCloseError err _); reflexivity.
Qed.

(** Whatever is read, the reader calls every connection callback once, in
    the order of [rl.OnConnect], and does so before it starts a task for
    any message; no callback is called again later. *)
Theorem reader_calls_hooks_once_before_reading (cfg : ConnConfig Hook)
    (conn : nat) (forwarded_for : string) (reads : list (Read Err))
    (clients : list nat) :
  exists acts,
    fst (fst (reader IsUnexpectedCloseError PingMessage PongMessage cfg conn
                forwarded_for reads clients))
      = reader_setup cfg ++ acts /\
    called_hooks (reader_setup (Err:=Err) cfg) = OnConnect cfg /\
    started_messages (reader_setup (Err:=Err) cfg) = [] /\
    called_hooks acts = [].
Proof.
  assert (Hsetup : called_hooks (reader_setup (Err:=Err) cfg) = OnConnect cfg
                   /\ started_messages (reader_setup (Err:=Err) cfg) = []).
  { unfold reader_setup. simpl.
    induction (OnConnect cfg) as [|h hs IH]; simpl; [auto|].
    destruct IH as [-> ->]. auto. }
  destruct Hsetup as [Hhooks Hnone].
  unfold reader. pose proof (read_loop_calls_no_hook forwarded_for reads) as Hl.
  destruct (loop forwarded_for reads) as [acts exited]. simpl in Hl.
  destruct exited.
  - unfold reader_deferred. destruct (clients_Load conn clients); simpl;
      eexists; (split; [reflexivity|]); rewrite called_hooks_app, Hl; auto.
  - simpl. exists acts. auto.
Qed.

(** The deferred function of the reader takes the connection out of the
    registry and leaves the other connections in; it closes the connection
    and releases its listeners exactly when the connection was still
    registered, and stops the ticker in any case. *)
Theorem reader_exit_unregisters (conn : nat) (clients : list nat) :
  clients_Load conn (snd (reader_deferred (Err:=Err) (Hook:=Hook) conn clients))
    = false /\
  (forall c, c <> conn ->
             clients_Load c
               (snd (reader_deferred (Err:=Err) (Hook:=Hook) conn clients))
             = clients_Load c clients) /\
  (In ConnClose (fst (reader_deferred (Err:=Err) (Hook:=Hook) conn clients))
   <-> clients_Load conn clients = true) /\
  (In Call_removeListener
      (fst (reader_deferred (Err:=Err) (Hook:=Hook) conn clients))
   <-> clients_Load conn clients = true) /\
  In TickerStop (fst (reader_deferred (Err:=Err) (Hook:=Hook) conn clients)).
Proof.
  unfold reader_deferred.
  destruct (clients_Load conn clients) eqn:Hload; simpl.
  - repeat split; auto.
    + rewrite clients_Load_Delete, Nat.eqb_refl. apply andb_false_r.
    + intros c Hc. rewrite clients_Load_Delete.
      destruct (Nat.eqb_spec conn c); [congruence | apply andb_true_r].
  - repeat split; auto; try discriminate.
    + intros [H | []]. discriminate.
    + intros [H | []]. discriminate.
Qed.

(** Once the connection is out of the registry, the deferred function of
    the reader only stops the ticker: the connection is not closed again
    and [removeListener] is not called. *)
Theorem reader_exit_again_only_stops_ticker (conn : nat) (clients : list nat) :
  reader_deferred (Err:=Err) (Hook:=Hook) conn
    (snd (reader_deferred (Err:=Err) (Hook:=Hook) conn clients))
  = ([TickerStop],
     snd (reader_deferred (Err:=Err) (Hook:=Hook) conn clients)).
Proof.
  unfold reader_deferred at 1.
  assert (H : clients_Load conn
                (snd (reader_deferred (Err:=Err) (Hook:=Hook) conn clients))
              = false).
  { unfold reader_deferred.
    destruct (clients_Load conn clients) eqn:Hload; simpl; [|exact Hload].
    rewrite clients_Load_Delete, Nat.eqb_refl. apply andb_false_r. }
  rewrite H. reflexivity.
Qed.

(** A connection stored in the registry at upgrade and cleaned up by the
    reader leaves the registry as it was before. *)
Theorem store_then_reader_exit_restores_registry (conn : nat)
    (clients : list nat) :
  clients_Load conn clients = false ->
  reader_deferred (Err:=Err) (Hook:=Hook) conn (clients_Store conn clients)
  = ([TickerStop; ConnClose; ClientsDelete; Call_removeListener], clients).
Proof.
  intros Hfresh. unfold reader_deferred, clients_Store. rewrite Hfresh.
  unfold clients_Load at 1. simpl. rewrite Nat.eqb_refl. simpl.
  f_equal. apply clients_Delete_absent, Hfresh.
Qed.

(** The loop of the writer up to the first failed ping. *)
Lemma ping_loop_failure (n : nat) (err : string) (rest : list (option string)) :
  ping_loop (Err:=Err) (Hook:=Hook) PingMessage
    (repeat None n ++ Some err :: rest)
  = (repeat (WriteMessage PingMessage) (S n)
     ++ (if HasSuffix err "use of closed network connection" then []
         else [Log_ping_error err]),
     true).
Proof.
  induction n as [|n IH]; simpl.
  - destruct (HasSuffix err _); reflexivity.
  - simpl in IH. rewrite IH. reflexivity.
Qed.

Lemma ping_loop_success (n : nat) :
  ping_loop (Err:=Err) (Hook:=Hook) PingMessage (repeat None n)
  = (repeat (WriteMessage PingMessage) n, false).
Proof.
  induction n as [|n IH]; simpl; [reflexivity|]. rewrite IH. reflexivity.
Qed.

(** The writer sends a ping at every tick until one fails; the failed ping
    is its last action on the socket, it is logged unless its message ends
    with "use of closed network connection", and then the ticker is stopped
    and the connection closed.  While the pings succeed the writer goes on
    and closes nothing. *)
Theorem writer_stops_at_first_failed_ping (n : nat) (err : string)
    (rest : list (option string)) :
  writer (Err:=Err) (Hook:=Hook) PingMessage
    (repeat None n ++ Some err :: rest)
  = (repeat (WriteMessage PingMessage) (S n)
     ++ (if HasSuffix err "use of closed network connection" then []
         else [Log_ping_error err])
     ++ [TickerStop; ConnClose],
     true)
  /\
  writer (Err:=Err) (Hook:=Hook) PingMessage (repeat None n)
  = (repeat (WriteMessage PingMessage) n, false).
Proof.
  unfold writer. rewrite ping_loop_failure, ping_loop_success.
  rewrite app_nil_r, <- app_assoc. auto.
Qed.

(** A failed ping whose error message ends with "use of closed network
    connection", whatever comes before, stops the writer without a log
    line. *)
Theorem closed_connection_ping_error_not_logged (n : nat) (prefix : string)
    (rest : list (option string)) :
  existsb is_log
    (fst (writer (Err:=Err) (Hook:=Hook) PingMessage
            (repeat None n
             ++ Some (prefix ++ "use of closed network connection")%string
             :: rest)))
  = false.
Proof.
  unfold writer. rewrite ping_loop_failure, HasSuffix_append.
  cbn [fst]. rewrite app_nil_r, existsb_app. simpl.
  rewrite orb_false_r. clear. induction n as [|n IH]; simpl; auto.
Qed.

End ConnectionFacts.

(** * Properties of the information document *)

Section NIP11Facts.

Variable Info Request : Type.
Variable Encode : Info -> string.

(** Without overwrite functions the relay's own document is served; with
    some, they are applied in list order, so the last one has the final
    say.  The content type is set in every case. *)
Theorem nip11_overwrites_apply_in_order (info : Info)
    (overwrites : list (Request -> Info -> Info))
    (last : Request -> Info -> Info) (r : Request) :
  HandleNIP11 Encode info [] r
    = mkResponse [("Content-Type", "application/nostr+json")] (Encode info) /\
  HandleNIP11 Encode info (overwrites ++ [last]) r
    = mkResponse [("Content-Type", "application/nostr+json")]
        (Encode (last r (overwritten_info info overwrites r))).
Proof.
  unfold HandleNIP11, overwritten_info. split; [reflexivity|].
  rewrite fold_left_app. reflexivity.
Qed.

End NIP11Facts.

(** * More runs on the sample relay *)

Module MoreRuns.

Import Sample.

(** A message the parser does not know. *)
Lemma unhandled_message_ignored_witness :
  ParseMessage "PING" = None /\
  handle_message relay "PING" start = Returned tt (with_ctx Background start).
Proof.
  split; [reflexivity|].
  apply (unhandled_message_ignored relay "PING" start). exact I.
Defined.

(** The sample relay without its service URL. *)
Lemma auth_disabled_ignored_witness :
  ServiceURL (mkRelay "" false) = "" /\
  handle_envelope (mkRelay "" false) (AuthEnvelope None auth_event) start
    = Returned tt start.
Proof.
  split; [reflexivity|].
  apply (auth_disabled_ignored (mkRelay "" false) None auth_event start).
  reflexivity.
Defined.

(** An event is stored without any task being started. *)
Lemma only_req_starts_tasks_witness :
  is_Req (EventEnvelope (Filter:=Z) None note) = false /\
  spawned (final_state (handle_envelope relay (EventEnvelope None note) start))
    = [].
Proof.
  split; [reflexivity|].
  destruct (only_req_starts_tasks relay (EventEnvelope None note) start
              eq_refl) as (Hsp & _).
  exact Hsp.
Defined.

(** Two filters, both accepted. *)
Lemma req_all_accepted_registers_witness :
  [3; 4] <> [] /\
  Forall (fun err => err = None) (req_outcomes "sub" [3; 4] start) /\
  exists s',
    handle_envelope relay (ReqEnvelope "sub" [3; 4]) start = Returned tt s' /\
    registered_filters (calls s') = [3; 4] /\
    written s' = [].
Proof.
  assert (H1 : [3; 4] <> @nil Z) by discriminate.
  assert (H2 : Forall (fun err => err = None) (req_outcomes "sub" [3; 4] start)).
  { vm_compute. repeat constructor. }
  split; [exact H1|]. split; [exact H2|].
  destruct (req_all_accepted_registers relay "sub" [3; 4] start H1 H2)
    as (s' & Hrun & Hreg & _ & Hw & _).
  exists s'. repeat split; assumption.
Defined.


(** The same two filters in both orders. *)
Lemma count_total_ignores_filter_order_witness :
  CountEvents_nil relay = false /\
  Permutation [3; 4] [4; 3] /\
  written (final_state
             (handle_envelope relay (CountEnvelope "q" [4; 3] None) start))
  = written (final_state
               (handle_envelope relay (CountEnvelope "q" [3; 4] None) start)).
Proof.
  assert (Hperm : Permutation [3; 4] [4; 3]) by apply perm_swap.
  assert (Hpure : forall (cx : Ctx) (w : WebSocket) (f : Z) (e : nat),
             fst (handleCountRequest cx w f e) = Int64.wrap f)
    by (intros; reflexivity).
  split; [reflexivity|]. split; [exact Hperm|].
  destruct (count_total_ignores_filter_order relay "q" [3; 4] [4; 3] None None
              start Int64.wrap eq_refl Hpure Hperm)
    as (_ & H).
  exact H.
Defined.

(** A Count envelope without filters. *)
Lemma count_without_filters_is_zero_witness :
  CountEvents_nil relay = false /\
  handle_envelope relay (CountEnvelope "q" [] None) start
  = Returned tt (with_written [CountEnvelope "q" [] (Some 0)] start).
Proof.
  split; [reflexivity|].
  apply (count_without_filters_is_zero relay "q" None start). reflexivity.
Defined.

(** A valid Auth envelope on a fresh connection. *)
Lemma auth_first_success_witness :
  ServiceURL relay <> "" /\
  WaitingForAuth (ws start) = ChanOpen /\
  exists s',
    handle_envelope relay (AuthEnvelope None auth_event) start
      = Returned tt s' /\
    ws s' = mkWebSocket "c0ffee" "alice" ChanClosed /\
    written s' = [OKEnvelope "a1" true ""].
Proof.
  assert (Hurl : ServiceURL relay <> "") by (vm_compute; discriminate).
  assert (Hval : ValidateAuthEvent auth_event (Challenge (ws start))
                   (ServiceURL relay) = ("alice", true)) by reflexivity.
  split; [exact Hurl|]. split; [reflexivity|].
  destruct (auth_first_success relay None auth_event start "alice"
              Hurl Hval eq_refl)
    as (s' & Hrun & Hws & _ & Hw).
  exists s'. repeat split; assumption.
Defined.

(** The signal of a fresh connection is closed by the valid Auth
    envelope. *)
Lemma signal_closed_only_by_auth_witness :
  WaitingForAuth (ws start) = ChanOpen /\
  WaitingForAuth
    (ws (final_state
           (handle_envelope relay (AuthEnvelope None auth_event) start)))
    = ChanClosed /\
  exists ch ev pubkey,
    AuthEnvelope (Filter:=Z) None auth_event = AuthEnvelope ch ev /\
    ValidateAuthEvent ev (Challenge (ws start)) (ServiceURL relay)
      = (pubkey, true).
Proof.
  assert (Hrun : handle_envelope relay (AuthEnvelope None auth_event) start
                 = Returned tt
                     (final_state
                        (handle_envelope relay (AuthEnvelope None auth_event)
                           start)))
    by (vm_compute; reflexivity).
  assert (Hclosed : WaitingForAuth
                      (ws (final_state
                             (handle_envelope relay
                                (AuthEnvelope None auth_event) start)))
                    = ChanClosed) by (vm_compute; reflexivity).
  split; [reflexivity|]. split; [exact Hclosed|].
  exact (signal_closed_only_by_auth relay (AuthEnvelope None auth_event) start
           _ Hrun eq_refl Hclosed).
Defined.

(** A connection that is new to a registry of two. *)
Lemma store_then_reader_exit_restores_registry_witness :
  clients_Load 3 [1; 2]%nat = false /\
  reader_deferred (Err:=Z) (Hook:=string) 3 (clients_Store 3 [1; 2]%nat)
  = ([TickerStop; ConnClose; ClientsDelete; Call_removeListener], [1; 2]%nat).
Proof.
  split; [reflexivity|].
  apply (store_then_reader_exit_restores_registry Z string 3 [1; 2]%nat).
  reflexivity.
Defined.

End MoreRuns.
